(** * grobid-client.py: batch client for the GROBID services

    A shallow embedding of [grobid-client.py] (class [grobid_client] and the
    command-line entry point) and the properties of its discovery, batching,
    per-file processing and argument handling.

    Python values are embedded as follows.
    - [str] used for paths, URLs and console lines: [string];
    - the response body [res.text]: a list of Unicode code points ([Z]), a file's
      content: a list of bytes ([Z] in 0..255);
    - [int] values (status code, batch size, concurrency): [Z];
    - the dict [the_data] and the request headers: [gmap string string];
    - the file system, the remote service, the console and the log: one record
      [World] that every operation threads through; exceptions are the second
      component of the result (a state-and-exception monad [M]);
    - the process pool: [process_batch] takes the calls of a batch in the
      order of their submission; [pool_step] is the pool with its calls
      advancing in any order.
    [os.path] is [posixpath] (the client runs on a POSIX system); [ntpath] is
    used where the source names it. Library functions follow Python 3.11. *)

From Stdlib Require Import ZArith QArith Ascii String List Lia Bool.
From stdpp Require Import base gmap strings list fin_maps pretty.

Local Open Scope string_scope.
Local Open Scope list_scope.
Local Open Scope Z_scope.

(** ** Strings *)

Module Str.

(** [p[:i], p[i:]] where [i] is the index just after the last character
    satisfying [P], and [0] when there is none
    ([i = p.rfind(sep) + 1], or the backwards [while] loop of [ntpath.split]). *)
Fixpoint split_after_last (P : ascii -> bool) (s : string) : string * string :=
  match s with
  | EmptyString => (EmptyString, EmptyString)
  | String c s' =>
      let (h, t) := split_after_last P s' in
      if P c then (String c h, t)
      else match h with
           | EmptyString => (EmptyString, String c t)
           | _ => (String c h, t)
           end
  end.

(** [s.rstrip(chars)] *)
Fixpoint rstrip (P : ascii -> bool) (s : string) : string :=
  match s with
  | EmptyString => EmptyString
  | String c s' =>
      match rstrip P s' with
      | EmptyString => if P c then EmptyString else String c EmptyString
      | r => String c r
      end
  end.

(** [s.lstrip(chars)] *)
Fixpoint lstrip (P : ascii -> bool) (s : string) : string :=
  match s with
  | EmptyString => EmptyString
  | String c s' => if P c then lstrip P s' else s
  end.

Fixpoint all (P : ascii -> bool) (s : string) : bool :=
  match s with
  | EmptyString => true
  | String c s' => P c && all P s'
  end.

Fixpoint any (P : ascii -> bool) (s : string) : bool :=
  match s with
  | EmptyString => false
  | String c s' => P c || any P s'
  end.

Definition is_empty (s : string) : bool :=
  match s with EmptyString => true | _ => false end.

(** [s.startswith(p)] *)
Definition startswith (p s : string) : bool := String.prefix p s.

(** [s.endswith(p)] *)
Definition endswith (p s : string) : bool :=
  String.prefix (String.rev p) (String.rev s).

(** [s.find(c, start)] as an option. *)
Fixpoint find_from (P : ascii -> bool) (start : nat) (s : string) : option nat :=
  match s with
  | EmptyString => None
  | String c s' =>
      match start with
      | O => if P c then Some O else S <$> find_from P O s'
      | S k => S <$> find_from P k s'
      end
  end.

(** [s[:n]] and [s[n:]] *)
Fixpoint take (n : nat) (s : string) : string :=
  match n, s with
  | S k, String c s' => String c (take k s')
  | _, _ => EmptyString
  end.

Fixpoint drop (n : nat) (s : string) : string :=
  match n, s with
  | S k, String _ s' => drop k s'
  | _, _ => s
  end.

(** ASCII [s.upper()] *)
Definition upper_char (c : ascii) : ascii :=
  let n := nat_of_ascii c in
  if (97 <=? n)%nat && (n <=? 122)%nat then ascii_of_nat (n - 32) else c.

Fixpoint upper (s : string) : string :=
  match s with
  | EmptyString => EmptyString
  | String c s' => String (upper_char c) (upper s')
  end.

Fixpoint map (f : ascii -> ascii) (s : string) : string :=
  match s with
  | EmptyString => EmptyString
  | String c s' => String (f c) (map f s')
  end.

End Str.

(** ** Paths: [posixpath], [ntpath] *)

Definition is_slash (c : ascii) : bool := Ascii.eqb c "/".
Definition is_backslash (c : ascii) : bool := Ascii.eqb c "\".
Definition is_bothseps (c : ascii) : bool := is_slash c || is_backslash c.
Definition is_dot (c : ascii) : bool := Ascii.eqb c ".".

Module posixpath.

(** [posixpath.split(p)]:
    [i = p.rfind('/') + 1; head, tail = p[:i], p[i:]];
    [if head and head != '/'*len(head): head = head.rstrip('/')]. *)
Definition split (p : string) : string * string :=
  let (head, tail) := Str.split_after_last is_slash p in
  (if negb (Str.is_empty head) && negb (Str.all is_slash head)
   then Str.rstrip is_slash head else head, tail).

(** [posixpath.join(a, b)] for one component [b]:
    [if b.startswith('/'): path = b]
    [elif not path or path.endswith('/'): path += b]
    [else: path += '/' + b]. *)
Definition join (a b : string) : string :=
  if Str.startswith "/" b then b
  else if Str.is_empty a || Str.endswith "/" a then a +:+ b
  else a +:+ "/" +:+ b.

(** [posixpath.splitext(p)[0]] ([genericpath._splitext] with [sep = '/'],
    [altsep = None], [extsep = '.']): the last dot starts the extension when
    it comes after the last slash and some character between that slash and
    the dot is not a dot. *)
Definition splitext_root (p : string) : string :=
  let (dir, name) := Str.split_after_last is_slash p in
  let (upto_dot, ext) := Str.split_after_last is_dot name in
  (* [upto_dot] ends with the last dot of [name], when there is one *)
  match String.rev upto_dot with
  | EmptyString => p
  | String _ before_rev =>
      if Str.all is_dot before_rev then p
      else dir +:+ String.rev before_rev
  end.

End posixpath.

Module ntpath.

Definition norm_char (c : ascii) : ascii := if is_slash c then "\"%char else c.

(** [ntpath.splitdrive(p)[1]] (Python 3.11): the path without its drive.
    [normp = p.replace('/', '\\')]; a path that starts with two separators
    is a UNC or device path, whose drive runs to the second separator found
    from [start] (the whole path when there is none); otherwise a second
    character [':'] ends a drive letter. *)
Definition splitdrive_rest (p : string) : string :=
  let normp := Str.map norm_char p in
  if Str.startswith "\\" normp then
    let start := if String.eqb (Str.upper (Str.take 8 normp)) "\\?\UNC\"
                 then 8%nat else 2%nat in
    match Str.find_from is_backslash start normp with
    | None => EmptyString
    | Some index =>
        match Str.find_from is_backslash (S index) normp with
        | None => EmptyString
        | Some index2 => Str.drop index2 p
        end
    end
  else if String.eqb (Str.take 1 (Str.drop 1 normp)) ":" then Str.drop 2 p
  else p.

(** [ntpath.basename(p) = ntpath.split(p)[1]]: what follows the last slash
    or backslash of the path without its drive. *)
Definition basename (p : string) : string :=
  snd (Str.split_after_last is_bothseps (splitdrive_rest p)).

End ntpath.

(** ** [int(str)] *)

Module pyint.

(** The whitespace [int] drops around an ASCII string: TAB..CR and the
    space. *)
Definition is_space (c : ascii) : bool :=
  let n := nat_of_ascii c in
  ((9 <=? n) && (n <=? 13) || (n =? 32))%nat.

Definition digit (c : ascii) : option Z :=
  let n := nat_of_ascii c in
  if ((48 <=? n) && (n <=? 57))%nat then Some (Z.of_nat n - 48) else None.

(** Decimal digits, a single underscore allowed between two digits.
    [after_digit] says whether the previous character was a digit. *)
Fixpoint digits (s : string) (acc : Z) (after_digit : bool) : option Z :=
  match s with
  | EmptyString => if after_digit then Some acc else None
  | String c s' =>
      match digit c with
      | Some d => digits s' (10 * acc + d) true
      | None =>
          if Ascii.eqb c "_" && after_digit then digits s' acc false else None
      end
  end.

Definition is_digit (c : ascii) : bool :=
  match digit c with Some _ => true | None => false end.

Fixpoint count_digits (s : string) : nat :=
  match s with
  | EmptyString => O
  | String c s' => ((if is_digit c then 1 else 0) + count_digits s')%nat
  end.

(** [sys.get_int_max_str_digits()], the default. *)
Definition max_str_digits : nat := 4300.

(** [int(s)] for a [str] of ASCII characters: surrounding whitespace is
    dropped, then an optional sign and the digits; [None] is [ValueError]. *)
Definition int (s : string) : option Z :=
  let s := Str.rstrip is_space (Str.lstrip is_space s) in
  let (neg, body) :=
    match s with
    | String "-" r => (true, r)
    | String "+" r => (false, r)
    | _ => (false, s)
    end in
  if (max_str_digits <? count_digits body)%nat then None
  else (fun v : Z => if neg then - v else v) <$> digits body 0 false.

End pyint.

(** ** [str.encode('utf8')] *)

Module utf8.

(** The bytes of one code point; [None] is [UnicodeEncodeError]
    (a surrogate, U+D800..U+DFFF, cannot be encoded). *)
Definition encode_cp (c : Z) : option (list Z) :=
  if c <? 0 then None
  else if c <? 0x80 then Some [c]
  else if c <? 0x800 then
    Some [Z.lor 0xC0 (Z.shiftr c 6); Z.lor 0x80 (Z.land c 0x3F)]
  else if c <? 0x10000 then
    if (0xD800 <=? c) && (c <=? 0xDFFF) then None
    else Some [Z.lor 0xE0 (Z.shiftr c 12);
               Z.lor 0x80 (Z.land (Z.shiftr c 6) 0x3F);
               Z.lor 0x80 (Z.land c 0x3F)]
  else if c <=? 0x10FFFF then
    Some [Z.lor 0xF0 (Z.shiftr c 18);
          Z.lor 0x80 (Z.land (Z.shiftr c 12) 0x3F);
          Z.lor 0x80 (Z.land (Z.shiftr c 6) 0x3F);
          Z.lor 0x80 (Z.land c 0x3F)]
  else None.

Fixpoint encode (t : list Z) : option (list Z) :=
  match t with
  | [] => Some []
  | c :: t' =>
      match encode_cp c, encode t' with
      | Some b, Some bs => Some (b ++ bs)
      | _, _ => None
      end
  end.

(** A code point that a [str] can hold and UTF-8 can encode. *)
Definition scalar (c : Z) : Prop :=
  0 <= c <= 0x10FFFF /\ ~ (0xD800 <= c <= 0xDFFF).

(** The text a sequence of bytes spells in UTF-8, to say that a file reads
    back as the text written to it. [need] continuation bytes are still to
    come for the code point whose upper bits are [acc]. *)
Fixpoint decode_from (bs : list Z) (need : nat) (acc : Z) : option (list Z) :=
  match bs with
  | [] => match need with O => Some [] | S _ => None end
  | b :: bs' =>
      match need with
      | O =>
          if b <? 0x80 then cons b <$> decode_from bs' 0 0
          else if b <? 0xC0 then None
          else if b <? 0xE0 then decode_from bs' 1 (b - 0xC0)
          else if b <? 0xF0 then decode_from bs' 2 (b - 0xE0)
          else if b <? 0xF8 then decode_from bs' 3 (b - 0xF0)
          else None
      | S k =>
          if (0x80 <=? b) && (b <? 0xC0) then
            let acc := acc * 64 + (b - 0x80) in
            match k with
            | O => cons acc <$> decode_from bs' 0 0
            | S _ => decode_from bs' k acc
            end
          else None
      end
  end.

Definition decode (bs : list Z) : option (list Z) := decode_from bs 0 0.
End utf8.

(** ** The world the client runs in *)

(** Exceptions the client can raise. [OSError] stands for its subclasses
    ([FileNotFoundError], [PermissionError], ...); [TransportError] for the
    failures of the HTTP library (connection refused, time-out). *)
Inductive exn : Set :=
| TypeError | ValueError | AssertionError | OSError
| UnicodeEncodeError | RecursionError | TransportError.

Global Instance exn_eq_dec : EqDecision exn.
Proof. solve_decision. Defined.

(** One part of the multipart body: [(field, (filename, file, type, headers))]. *)
Record FilePart := mkFilePart {
  part_field : string;
  part_filename : string;
  part_type : string;
  part_headers : gmap string string
}.

(** The arguments of [self.post]. *)
Record Request := mkRequest {
  req_url : string;
  req_files : list FilePart;
  req_data : gmap string string;
  req_headers : gmap string string
}.

(** What the remote service does with one request: it answers with a body
    and a status code, or the transport fails. *)
Inductive reply :=
| Response (text : list Z) (status : Z)
| NoResponse.

(** What the client does to the outside, in the order it does it. *)
Inductive event :=
| Print (line : string)            (* [print(...)], one line of standard output *)
| PrintRuntime                     (* the line with the measured run time *)
| LogSetup (filename : string)     (* [logging.basicConfig(filename=..., level=WARNING)];
                                      the log is kept apart from [fs_files] *)
| LogWarning (message : string)    (* [logging.warning(...)], one record of the log *)
| OpenRead (path : string)         (* [open(path, 'rb')] *)
| Post (r : Request)               (* one HTTP POST *)
| Sleep (seconds : Q).             (* [time.sleep(seconds)] *)

Record World := mkWorld {
  (** regular files: path to content *)
  fs_files : gmap string (list Z);
  (** directories that can be listed: path to entry names, in [os.scandir] order *)
  fs_dirs : gmap string (list string);
  (** the directories a directory pattern with wildcards expands to *)
  fs_wildcard : string -> list string;
  (** paths that cannot be opened for writing (missing or read-only
      directory, the path of a directory) *)
  fs_denied : gset string;
  (** the replies of the remote service to the next requests, in order;
      once exhausted the service is unreachable *)
  remote : list reply;
  (** everything done so far *)
  trace : list event
}.

Definition set_files (f : gmap string (list Z)) (w : World) : World :=
  mkWorld f (fs_dirs w) (fs_wildcard w) (fs_denied w) (remote w) (trace w).
Definition set_remote (r : list reply) (w : World) : World :=
  mkWorld (fs_files w) (fs_dirs w) (fs_wildcard w) (fs_denied w) r (trace w).
Definition set_trace (t : list event) (w : World) : World :=
  mkWorld (fs_files w) (fs_dirs w) (fs_wildcard w) (fs_denied w) (remote w) t.

(** ** The monad: a state [World] and exceptions *)

Inductive result (A : Type) :=
| Ok (a : A)
| Raise (e : exn).
Arguments Ok {A} a.
Arguments Raise {A} e.

Definition M (A : Type) : Type := World -> result A * World.

Global Instance M_ret : MRet M := fun A (a : A) w => (Ok a, w).

Global Instance M_bind : MBind M := fun A B (f : A -> M B) (m : M A) w =>
  match m w with
  | (Ok a, w') => f a w'
  | (Raise e, w') => (Raise e, w')
  end.

Definition raise {A} (e : exn) : M A := fun w => (Raise e, w).

Definition emit (e : event) : M unit :=
  fun w => (Ok tt, set_trace (trace w ++ [e]) w).

(** [for x in l: body(x)] *)
Fixpoint for_each {A} (body : A -> M unit) (l : list A) : M unit :=
  match l with
  | [] => mret tt
  | x :: l' => body x ;; for_each body l'
  end.

(** ** Python builtins and library calls on the world *)

(** [str(b)] for a [bool] *)
Definition str_bool (b : bool) : string := if b then "True" else "False".

(** [os.path.isfile(path)] *)
Definition isfile (path : string) (w : World) : bool :=
  match fs_files w !! path with Some _ => true | None => false end.

(** [open(path, 'rb')]: the file must be there. *)
Definition open_rb (path : string) : M unit := fun w =>
  if isfile path w then emit (OpenRead path) w else (Raise OSError, w).

(** [time.sleep(secs)]: a negative length is a [ValueError]. *)
Definition sleep (secs : Q) : M unit :=
  if Qle_bool 0 secs then emit (Sleep secs) else raise ValueError.

(** [with io.open(filename, 'w', encoding='utf8') as f: f.write(text)]:
    opening creates or truncates the file, writing encodes the text; when the
    text cannot be encoded the file stays empty. *)
Definition write_text (filename : string) (text : list Z) : M unit := fun w =>
  if decide (filename ∈ fs_denied w) then (Raise OSError, w)
  else match utf8.encode text with
       | Some bytes => (Ok tt, set_files (<[filename := bytes]> (fs_files w)) w)
       | None => (Raise UnicodeEncodeError, set_files (<[filename := []]> (fs_files w)) w)
       end.

(** Modelled from the spec: the HTTP transport [ApiClient.post] of
    [client.py], which is not part of the source at hand. ``Send one
    multipart POST to a given URL with given files/data/headers; return
    (body text, status code) or fail with TransportError. No retry, no
    interpretation of status.'' *)
Definition post (r : Request) : M (list Z * Z) := fun w =>
  let w1 := set_trace (trace w ++ [Post r]) w in
  match remote w with
  | Response text status :: rest => (Ok (text, status), set_remote rest w1)
  | NoResponse :: rest => (Raise TransportError, set_remote rest w1)
  | [] => (Raise TransportError, w1)
  end.

(** ** [glob.glob] *)

Module glob.

(** [magic_check = re.compile('([*?[])')] *)
Definition is_magic (c : ascii) : bool :=
  Ascii.eqb c "*" || Ascii.eqb c "?" || Ascii.eqb c "[".

Definition has_magic (s : string) : bool := Str.any is_magic s.

(** [fnmatch] for patterns made of literal characters, [*] and [?]
    (the client's only pattern is [*.pdf]); the match is case-sensitive,
    as [posixpath.normcase] is the identity. *)
Fixpoint fnmatch_chars (pat name : list ascii) : bool :=
  match pat with
  | [] => match name with [] => true | _ => false end
  | p :: pat' =>
      if Ascii.eqb p "*" then
        (fix star (name : list ascii) : bool :=
           fnmatch_chars pat' name
           || match name with [] => false | _ :: name' => star name' end) name
      else
        match name with
        | [] => false
        | c :: name' =>
            (Ascii.eqb p "?" || Ascii.eqb p c) && fnmatch_chars pat' name'
        end
  end.

Definition fnmatch (name pat : string) : bool :=
  fnmatch_chars (list_ascii_of_string pat) (list_ascii_of_string name).

(** [_ishidden(path)]: [path[0] == '.'] *)
Definition ishidden (path : string) : bool := Str.startswith "." path.

(** [_glob1(dirname, pattern)]: the entries of the directory that match;
    a directory that cannot be listed ([OSError] in [os.scandir]) has
    none; hidden entries only match a hidden pattern. *)
Definition glob1 (dirname pattern : string) (w : World) : list string :=
  match fs_dirs w !! dirname with
  | None => []
  | Some names =>
      let names :=
        if ishidden pattern then names
        else List.filter (fun x => negb (ishidden x)) names in
      List.filter (fun x => fnmatch x pattern) names
  end.

(** The directories whose entries are matched: the directory part itself,
    or what it expands to when it has wildcards of its own. *)
Definition dirs_of (pathname dirname : string) (w : World) : list string :=
  if negb (String.eqb dirname pathname) && has_magic dirname
  then fs_wildcard w dirname
  else [dirname].

(** [glob.glob(pathname)] for a [pathname] with a directory part and
    wildcards in its last component (every [input + "/*.pdf"] is one). *)
Definition glob (pathname : string) (w : World) : list string :=
  let (dirname, basename) := posixpath.split pathname in
  d ← dirs_of pathname dirname w;
  name ← glob1 d basename w;
  [posixpath.join d name].

End glob.

(** ** The client *)

(** [self.config], loaded from [config.json]. *)
Record Config := mkConfig {
  batch_size : Z;
  grobid_server : string;
  grobid_port : string;
  sleep_time : Q
}.

(** The values the client passes to [process_pdf]. *)
Inductive pyval :=
| PStr (s : string)
| PNone
| PBool (b : bool).

(** The parameters of [process_pdf] after [self]. *)
Record Job := mkJob {
  pdf_file : string;
  output : option string;
  service : string;
  generateIDs : bool;
  consolidate_header : bool;
  consolidate_citations : bool;
  error_log : bool
}.

Definition val_of_output (o : option string) : pyval :=
  match o with Some d => PStr d | None => PNone end.

Definition args_of_job (j : Job) : list pyval :=
  [PStr (pdf_file j); val_of_output (output j); PStr (service j);
   PBool (generateIDs j); PBool (consolidate_header j);
   PBool (consolidate_citations j); PBool (error_log j)].

(** The seven parameters of [process_pdf] have no default value: only a
    call with seven positional values binds them. The values have the types
    the client's two call sites give them (a path, a path or [None], the
    service, four flags). *)
Definition bind_args (args : list pyval) : option Job :=
  match args with
  | [PStr f; o; PStr s; PBool g; PBool h; PBool c; PBool e] =>
      match o with
      | PStr d => Some (mkJob f (Some d) s g h c e)
      | PNone => Some (mkJob f None s g h c e)
      | PBool _ => None
      end
  | _ => None
  end.

(** A call [self.process_pdf( *args )]: [TypeError] when the values do not
    bind the parameters, the body otherwise. *)
Definition call_process_pdf (body : Job -> M unit) (args : list pyval) : M unit :=
  match bind_args args with
  | Some job => body job
  | None => raise TypeError
  end.

(** [os.path.join(output, name)]; [output] may be [None]. *)
Definition os_path_join (output : option string) (name : string) : M string :=
  match output with
  | Some d => mret (posixpath.join d name)
  | None => raise TypeError
  end.

(** The name of the TEI file of a PDF file (lines 65-66). *)
Definition tei_name (pdf_file : string) : string :=
  posixpath.splitext_root (ntpath.basename pdf_file) +:+ ".tei.xml".

(** Lines 80-83. *)
Definition the_url (cfg : Config) (service : string) : string :=
  let the_url := "http://" +:+ grobid_server cfg in
  let the_url :=
    if (0 <? String.length (grobid_port cfg))%nat
    then the_url +:+ ":" +:+ grobid_port cfg else the_url in
  the_url +:+ "/api/" +:+ service.

(** Lines 87-93. *)
Definition the_data (generateIDs consolidate_header consolidate_citations : bool)
  : gmap string string :=
  let the_data := ∅ in
  let the_data := if generateIDs then <["generateIDs" := "1"]> the_data else the_data in
  let the_data :=
    if consolidate_header then <["consolidateHeader" := "1"]> the_data else the_data in
  let the_data :=
    if consolidate_citations then <["consolidateCitations" := "1"]> the_data
    else the_data in
  the_data.

(** [sys.getrecursionlimit()], the default. *)
Definition recursion_limit : nat := 1000.

(** [process_pdf] (lines 62-117). [depth] is the number of nested calls the
    interpreter still allows, so that the call of line 108 can be written as
    the source has it: with the values [pdf_file] and [output] only. *)
Fixpoint process_pdf (cfg : Config) (depth : nat) (job : Job) : M unit :=
  match depth with
  | O => raise RecursionError
  | S depth' =>
      let pdf_file_name := ntpath.basename (pdf_file job) in
      filename ← os_path_join (output job)
                   (posixpath.splitext_root pdf_file_name +:+ ".tei.xml");
      found ← (fun w => (Ok (isfile filename w), w));
      if found : bool then mret tt
      else
        emit (Print (pdf_file job));;
        open_rb (pdf_file job);;
        let files := [mkFilePart "input" (pdf_file job) "application/pdf"
                        {["Expires" := "0"]}] in
        let the_url := the_url cfg (service job) in
        let the_data := the_data (generateIDs job) (consolidate_header job)
                          (consolidate_citations job) in
        '(res_text, status) ←
          post (mkRequest the_url files the_data {["Accept" := "text/plain"]});
        if status =? 503 then
          sleep (sleep_time cfg);;
          call_process_pdf (process_pdf cfg depth')
            [PStr (pdf_file job); val_of_output (output job)]
        else if status =? 200 then
          write_text filename res_text
        else
          emit (Print ("Processing failed with error " +:+ pretty status));;
          if error_log job
          then emit (LogWarning ("Failed to process " +:+ pdf_file job
                                 +:+ " with status " +:+ pretty status))
          else mret tt
  end.

(** [executor.submit(fn, *args)]: the call runs in a worker of the pool and
    what it raises stays in the future that [submit] returns; the client
    drops that future. The calls of a batch are taken one after the other,
    in the order of submission, which is one of the schedules of the pool
    ([pool_step] below has them all). *)
Definition submit (call : M unit) : M unit :=
  fun w => (Ok tt, snd (call w)).

(** [process_batch] (lines 55-60). A pool must have at least one worker:
    [ProcessPoolExecutor(max_workers=n)] raises [ValueError] otherwise. *)
Definition process_batch (cfg : Config) (pdf_files : list string)
    (output : option string) (n : Z) (service : string)
    (generateIDs consolidate_header consolidate_citations error_log : bool)
  : M unit :=
  emit (Print (pretty (length pdf_files) +:+ " PDF files to process"));;
  if n <=? 0 then raise ValueError
  else
    for_each (fun pdf_file =>
      submit (call_process_pdf (process_pdf cfg recursion_limit)
                [PStr pdf_file; val_of_output output; PStr service;
                 PBool generateIDs; PBool consolidate_header;
                 PBool consolidate_citations; PBool error_log])) pdf_files.

(** The loop of lines 44-49 over the files found, with the list [pdf_files]
    filled so far; [dispatch] is the call of line 48. The list left when the
    loop ends is returned. *)
Fixpoint process_loop (dispatch : list string -> M unit) (batch_size_pdf : Z)
    (found pdf_files : list string) : M (list string) :=
  match found with
  | [] => mret pdf_files
  | pdf_file :: found' =>
      let pdf_files := pdf_files ++ [pdf_file] in
      if Z.of_nat (length pdf_files) =? batch_size_pdf then
        dispatch pdf_files;;
        process_loop dispatch batch_size_pdf found' []
      else process_loop dispatch batch_size_pdf found' pdf_files
  end.

(** [glob.glob(input + "/*.pdf")]; [input] may be [None]. *)
Definition glob_input (input : option string) : M (list string) :=
  match input with
  | Some d => fun w => (Ok (glob.glob (d +:+ "/*.pdf") w), w)
  | None => raise TypeError
  end.

(** Lines 44-53, for the list [found] that [glob.glob] returned: the loop,
    then the last batch. *)
Definition dispatch_all (dispatch : list string -> M unit) (batch_size_pdf : Z)
    (found : list string) : M unit :=
  pdf_files ← process_loop dispatch batch_size_pdf found [];
  if (0 <? length pdf_files)%nat then dispatch pdf_files else mret tt.

(** [process] (lines 35-53). *)
Definition process (cfg : Config) (input output : option string) (n : Z)
    (service : string)
    (generateIDs consolidate_header consolidate_citations error_log : bool)
  : M unit :=
  emit (Print (str_bool error_log));;
  (if error_log then emit (LogSetup "errors.log") else mret tt);;
  let batch_size_pdf := batch_size cfg in
  found ← glob_input input;
  dispatch_all
    (fun pdf_files =>
       process_batch cfg pdf_files output n service generateIDs
         consolidate_header consolidate_citations error_log)
    batch_size_pdf found.

(** ** The command line (lines 124-161) *)

Record Args := mkArgs {
  arg_service : string;
  arg_input : option string;       (* [None] when [--input] is not given *)
  arg_output : option string;      (* [None] when [--output] is not given *)
  arg_n : option string;           (* [None] when [--n] is not given: the default, the [int] 10 *)
  arg_generateIDs : bool;
  arg_consolidate_header : bool;
  arg_consolidate_citations : bool;
  arg_error_log : bool
}.

(** Lines 141-146:
    [n = 1; try: n = int(args.n); assert n > 0 ... except ValueError: print(...)]. *)
Definition concurrency (arg_n : option string) : M Z :=
  let n := 1 in
  match match arg_n with Some s => pyint.int s | None => Some 10 end with
  | Some n => if 0 <? n then mret n else raise AssertionError
  | None =>
      emit (Print ("Invalid concurrency parameter n: " +:+ pretty n
                   +:+ " n = 10 will be used by default"));;
      mret n
  end.

(** The run, for a configuration file that loads into [cfg]. *)
Definition main (cfg : Config) (args : Args) : M unit :=
  n ← concurrency (arg_n args);
  process cfg (arg_input args) (arg_output args) n (arg_service args)
    (arg_generateIDs args) (arg_consolidate_header args)
    (arg_consolidate_citations args) (arg_error_log args);;
  emit PrintRuntime.

(** ** Notions used in the statements *)

(** The request of lines 71-100 for a job. *)
Definition request_of (cfg : Config) (job : Job) : Request :=
  mkRequest (the_url cfg (service job))
    [mkFilePart "input" (pdf_file job) "application/pdf" {["Expires" := "0"]}]
    (the_data (generateIDs job) (consolidate_header job) (consolidate_citations job))
    {["Accept" := "text/plain"]}.

(** The [filename] of line 66 when the output directory is [d]. *)
Definition output_path (d : string) (job : Job) : string :=
  posixpath.join d (tei_name (pdf_file job)).

(** The console notice of line 115 and the log record of line 117. *)
Definition failure_notice (status : Z) : string :=
  "Processing failed with error " +:+ pretty status.

Definition failure_warning (pdf_file : string) (status : Z) : string :=
  "Failed to process " +:+ pdf_file +:+ " with status " +:+ pretty status.

(** The console line of line 146, for the value [n] has when it runs. *)
Definition invalid_n_notice (n : Z) : string :=
  "Invalid concurrency parameter n: " +:+ pretty n
  +:+ " n = 10 will be used by default".

(** The lines on the console, the records of the log and the requests sent,
    read off the trace. *)
Definition console (w : World) : list string :=
  omap (fun e => match e with Print line => Some line | _ => None end) (trace w).

Definition log_records (w : World) : list string :=
  omap (fun e => match e with LogWarning m => Some m | _ => None end) (trace w).

Definition requests (w : World) : list Request :=
  omap (fun e => match e with Post r => Some r | _ => None end) (trace w).

(** The run of [m] from [w] ends with an exception. *)
Definition raises {A} (m : M A) (w : World) : Prop :=
  ∃ e w', m w = (Raise e, w').

(** Every run of [m] ends without an exception. *)
Definition returns {A} (m : M A) : Prop :=
  forall w, exists a w', m w = (Ok a, w').

(** Every run of [m] relates the world it starts from to the world it ends
    in by [P]. *)
Definition keeps (P : World -> World -> Prop) {A} (m : M A) : Prop :=
  forall w, P w (snd (m w)).

(** Every file of [w] is a file of [w'], with the same content. *)
Definition files_kept (w w' : World) : Prop := fs_files w ⊆ fs_files w'.

(** [w'] has the files of [w] and the same replies still to come: nothing
    was written and no request was sent in between. *)
Definition untouched (w w' : World) : Prop :=
  fs_files w' = fs_files w /\ remote w' = remote w.

(** The loop of lines 44-49 again, each call of [process_batch] replaced by
    its argument: the batches dispatched in the loop and the list left at
    its end. *)
Fixpoint batches_loop (batch_size_pdf : Z) (found pdf_files : list string)
  : list (list string) * list string :=
  match found with
  | [] => ([], pdf_files)
  | pdf_file :: found' =>
      let pdf_files := pdf_files ++ [pdf_file] in
      if Z.of_nat (length pdf_files) =? batch_size_pdf then
        let (bs, rest) := batches_loop batch_size_pdf found' [] in
        (pdf_files :: bs, rest)
      else batches_loop batch_size_pdf found' pdf_files
  end.

(** The batches of lines 44-53: those of the loop, then the last one. *)
Definition batches (batch_size_pdf : Z) (found : list string) : list (list string) :=
  let (bs, pdf_files) := batches_loop batch_size_pdf found [] in
  if (0 <? length pdf_files)%nat then bs ++ [pdf_files] else bs.

(** [ceil(N / B)] for [B > 0]. *)
Definition ceil_div (N B : Z) : Z := (N + B - 1) / B.

(** The fallback of the [--n] option as the help of the command words it:
    after a warning the run goes on with ten workers. *)
Definition falls_back_to_default (arg : string) (w : World) : Prop :=
  ∃ line, concurrency (Some arg) w = (Ok 10, set_trace (trace w ++ [Print line]) w).

(** The directories [glob.glob(input + "/*.pdf")] lists. *)
Definition listed_dirs (input : string) (w : World) : list string :=
  let pathname := input +:+ "/*.pdf" in
  glob.dirs_of pathname (fst (posixpath.split pathname)) w.

(** What [process] leaves on the console and in the log before discovery. *)
Definition process_prelude (error_log : bool) : list event :=
  Print (str_bool error_log) :: (if error_log then [LogSetup "errors.log"] else []).

(** ** The pool, step by step *)

(** Lines 65-68: the output path of the job, or [None] when the TEI file is
    already there. *)
Definition process_pdf_check (job : Job) : M (option string) :=
  let pdf_file_name := ntpath.basename (pdf_file job) in
  filename ← os_path_join (output job)
               (posixpath.splitext_root pdf_file_name +:+ ".tei.xml");
  ((fun w => (Ok (if isfile filename w then None else Some filename), w))
   : M (option string)).

(** Lines 70-117, with [depth] nested calls still allowed. *)
Definition process_pdf_act (cfg : Config) (depth : nat) (job : Job)
    (filename : string) : M unit :=
  emit (Print (pdf_file job));;
  open_rb (pdf_file job);;
  '(res_text, status) ← post (request_of cfg job);
  if status =? 503 then
    sleep (sleep_time cfg);;
    call_process_pdf (process_pdf cfg depth)
      [PStr (pdf_file job); val_of_output (output job)]
  else if status =? 200 then
    write_text filename res_text
  else
    emit (Print (failure_notice status));;
    if error_log job
    then emit (LogWarning (failure_warning (pdf_file job) status))
    else mret tt.

(** A call of [process_pdf] submitted to the pool: not started, past the
    check of line 67 with the output path it computed, or done. *)
Inductive task :=
| Submitted (job : Job)
| Checked (job : Job) (filename : string)
| Done.

(** One step of the pool: one of the calls runs the check of lines 65-68,
    or the rest of [process_pdf]. The calls take their steps in any order
    (every schedule of a pool of any size is among these runs); what a call
    raises ends that call and no other. *)
Inductive pool_step (cfg : Config) :
  World * list task -> World * list task -> Prop :=
| step_check (w w' : World) (ws : list task) (i : nat) (job : Job)
    (r : result (option string)) :
    ws !! i = Some (Submitted job) ->
    process_pdf_check job w = (r, w') ->
    pool_step cfg (w, ws)
      (w', <[i := match r with Ok (Some f) => Checked job f | _ => Done end]> ws)
| step_act (w w' : World) (ws : list task) (i : nat) (job : Job)
    (filename : string) (r : result unit) :
    ws !! i = Some (Checked job filename) ->
    process_pdf_act cfg (Nat.pred recursion_limit) job filename w = (r, w') ->
    pool_step cfg (w, ws) (w', <[i := Done]> ws).

(** What holds of the pool at every moment of a run from [w0]: the files of
    [w0] are there, and the output path of a call past its check is not one
    of them. *)
Definition pool_inv (w0 : World) (s : World * list task) : Prop :=
  files_kept w0 (fst s)
  /\ forall i job f, snd s !! i = Some (Checked job f) -> fs_files w0 !! f = None.

(** The job of one file of a run. *)
Definition job_of (out : option string) (service : string) (g h c e : bool)
    (pdf_file : string) : Job :=
  mkJob pdf_file out service g h c e.

(** The console line of line 56. *)
Definition batch_notice (pdf_files : list string) : event :=
  Print (pretty (length pdf_files) +:+ " PDF files to process").

(** The batches of a run dispatched one after the other, each by a pool
    that runs the calls of the batch to their end, in any order. *)
Inductive batches_run (cfg : Config) (job : string -> Job) :
  list (list string) -> World -> World -> Prop :=
| batches_run_nil (w : World) : batches_run cfg job [] w w
| batches_run_cons (b : list string) (bs : list (list string))
    (w w1 w2 : World) (ts : list task) :
    rtc (pool_step cfg)
      (set_trace (trace w ++ [batch_notice b]) w, Submitted <$> (job <$> b))
      (w1, ts) ->
    Forall (fun t => t = Done) ts ->
    batches_run cfg job bs w1 w2 ->
    batches_run cfg job (b :: bs) w w2.

(** The runs of [process] for a directory to search and a pool of at least
    one worker. *)
Definition process_runs (cfg : Config) (d : string) (out : option string)
    (service : string) (g h c e : bool) (w w' : World) : Prop :=
  batches_run cfg (job_of out service g h c e)
    (batches (batch_size cfg) (glob.glob (d +:+ "/*.pdf") w))
    (set_trace (trace w ++ process_prelude e) w) w'.

(** ** Sample data *)

Module Sample.

Definition config : Config := mkConfig 2 "localhost" "8070" (5 # 1).

(** A directory [in] with three PDF files, a hidden one and a text file. *)
Definition world (replies : list reply) : World :=
  mkWorld {[ "in/a.pdf" := [37; 80; 68; 70]; "in/b.pdf" := [37]; "in/c.pdf" := [] ]}
          {[ "in" := ["a.pdf"; "b.pdf"; ".h.pdf"; "c.pdf"; "notes.txt"] ]}
          (fun _ => []) ∅ replies [].

Definition job (error_log : bool) : Job :=
  mkJob "in/a.pdf" (Some "out") "processFulltextDocument" true false true error_log.

(** The same directory after a first run wrote [out/a.tei.xml]. *)
Definition world_done (replies : list reply) : World :=
  set_files (<["out/a.tei.xml" := [60; 84; 69; 73; 62]]> (fs_files (world replies)))
    (world replies).

(** Two jobs, the replies they will get, and the worlds after the call for
    [in/b.pdf] has run, and after the call for [in/a.pdf] has run too. *)
Definition job_a : Job :=
  mkJob "in/a.pdf" (Some "out") "processFulltextDocument" false false false false.

Definition job_b : Job :=
  mkJob "in/b.pdf" (Some "out") "processFulltextDocument" false false false false.

Definition world_two : World := world [Response [61] 200; Response [60] 200].

Definition world_b : World :=
  snd (process_pdf_act config 999 job_b "out/b.tei.xml" world_two).

Definition world_a_after_b : World :=
  snd (process_pdf_act config 999 job_a "out/a.tei.xml" world_b).

End Sample.

(** ** Notions used in further statements *)

(** The files whose path does not end in [.tei.xml] are those of before,
    with their content; none was created, none was changed. *)
Definition other_files_kept (w w' : World) : Prop :=
  forall p : string,
    Str.endswith ".tei.xml" p = false -> fs_files w' !! p = fs_files w !! p.

(** ** More sample data *)

Module SampleMore.

(** The sample directory when nothing can be written under [out]. *)
Definition world_no_out (replies : list reply) : World :=
  mkWorld (fs_files (Sample.world replies)) (fs_dirs (Sample.world replies))
    (fs_wildcard (Sample.world replies))
    {[ "out/a.tei.xml"; "out/b.tei.xml"; "out/c.tei.xml" ]}
    replies [].

(** The sample directory after a run that wrote the three TEI files. *)
Definition world_finished (replies : list reply) : World :=
  set_files
    (<["out/a.tei.xml" := [60]]>
       (<["out/b.tei.xml" := [61]]>
          (<["out/c.tei.xml" := [62]]> (fs_files (Sample.world replies)))))
    (Sample.world replies).

End SampleMore.

(** ** Tactics *)

(** Unfold the operations of the monad. *)
Ltac monad_unfold :=
  repeat progress
    (unfold mbind, M_bind, mret, M_ret, raise, os_path_join; cbn beta iota).

(** Both sides are worlds built from the same one: compare field by field,
    the traces up to the bracketing of [++]. *)
Ltac world_eq :=
  unfold set_remote, set_trace, set_files;
  cbn [trace remote fs_files fs_dirs fs_wildcard fs_denied];
  rewrite <- ?app_assoc; cbn [app]; reflexivity.

(** Linear arithmetic with division and remainder by constants. *)
Ltac div_lia := Z.to_euclidean_division_equations; lia.

(** Decide the comparisons of the goal, by arithmetic. *)
Ltac decide_cmp :=
  repeat match goal with
  | |- context [?a <? ?b] =>
      let E := fresh "E" in
      destruct (a <? b) eqn:E;
      [apply Z.ltb_lt in E|apply Z.ltb_ge in E]; try (exfalso; div_lia)
  | |- context [?a <=? ?b] =>
      let E := fresh "E" in
      destruct (a <=? b) eqn:E;
      [apply Z.leb_le in E|apply Z.leb_gt in E]; try (exfalso; div_lia)
  end.

(** Read the requests off a trace that was extended. *)
Ltac requests_simpl :=
  unfold requests, raise, emit, mret, M_ret;
  cbn [snd trace remote set_trace set_remote set_files];
  rewrite ?omap_app; cbn [omap list_omap];
  rewrite ?app_nil_r, <- ?app_assoc; cbn [app].

(** * Properties *)

(** ** The library functions on examples *)

Example split_after_last_ex :
  Str.split_after_last is_slash "in//a/b.pdf" = ("in//a/", "b.pdf").
Proof. reflexivity. Qed.
Example posix_split_ex1 : posixpath.split "in//*.pdf" = ("in", "*.pdf").
Proof. reflexivity. Qed.
Example posix_split_ex2 : posixpath.split "/*.pdf" = ("/", "*.pdf").
Proof. reflexivity. Qed.
Example join_ex1 : posixpath.join "out" "a.tei.xml" = "out/a.tei.xml".
Proof. reflexivity. Qed.
Example join_ex2 : posixpath.join "out/" "a.tei.xml" = "out/a.tei.xml".
Proof. reflexivity. Qed.
Example join_ex3 : posixpath.join "" "a.tei.xml" = "a.tei.xml".
Proof. reflexivity. Qed.
Example splitext_ex1 : posixpath.splitext_root "a.b.pdf" = "a.b".
Proof. reflexivity. Qed.
Example splitext_ex2 : posixpath.splitext_root ".pdf" = ".pdf".
Proof. reflexivity. Qed.
Example splitext_ex3 : posixpath.splitext_root "..a.pdf" = "..a".
Proof. reflexivity. Qed.
Example splitext_ex4 : posixpath.splitext_root "noext" = "noext".
Proof. reflexivity. Qed.
Example basename_ex1 : ntpath.basename "in/sub\a.pdf" = "a.pdf".
Proof. reflexivity. Qed.
Example basename_ex2 : ntpath.basename "//a/x.pdf" = "".
Proof. reflexivity. Qed.
Example basename_ex3 : ntpath.basename "C:/docs/x.pdf" = "x.pdf".
Proof. reflexivity. Qed.
Example basename_ex4 : ntpath.basename "//host/share/d/x.pdf" = "x.pdf".
Proof. reflexivity. Qed.
Example int_ex1 : pyint.int "12" = Some 12. Proof. reflexivity. Qed.
Example int_ex2 : pyint.int " -7 " = Some (-7). Proof. reflexivity. Qed.
Example int_ex3 : pyint.int "1_000" = Some 1000. Proof. reflexivity. Qed.
Example int_ex4 : pyint.int "1__0" = None. Proof. reflexivity. Qed.
Example int_ex5 : pyint.int "ten" = None. Proof. reflexivity. Qed.
Example int_ex6 : pyint.int "" = None. Proof. reflexivity. Qed.
Example int_ex7 : pyint.int "2.5" = None. Proof. reflexivity. Qed.
Example int_ex8 : pyint.int "0" = Some 0. Proof. reflexivity. Qed.
Example int_ex9 : pyint.int "+ 5" = None. Proof. reflexivity. Qed.
Example utf8_ex1 : utf8.encode [0x3C; 0xE9; 0x20AC; 0x1F600]
  = Some [0x3C; 0xC3; 0xA9; 0xE2; 0x82; 0xAC; 0xF0; 0x9F; 0x98; 0x80].
Proof. reflexivity. Qed.
Example utf8_ex2 : utf8.encode [0x41; 0xD800] = None.
Proof. reflexivity. Qed.
Example fnmatch_ex1 : glob.fnmatch "a.pdf" "*.pdf" = true.
Proof. reflexivity. Qed.
Example fnmatch_ex2 : glob.fnmatch "a.pdf.txt" "*.pdf" = false.
Proof. reflexivity. Qed.
Example fnmatch_ex3 : glob.fnmatch "A.PDF" "*.pdf" = false.
Proof. reflexivity. Qed.
Example glob_ex1 :
  glob.glob "in/*.pdf" (Sample.world []) = ["in/a.pdf"; "in/b.pdf"; "in/c.pdf"].
Proof. reflexivity. Qed.
Example glob_ex2 :
  glob.glob "in///*.pdf" (Sample.world []) = ["in/a.pdf"; "in/b.pdf"; "in/c.pdf"].
Proof. reflexivity. Qed.
Example tei_name_ex1 : tei_name "in/a.pdf" = "a.tei.xml".
Proof. reflexivity. Qed.
Example tei_name_ex2 : tei_name "in/x\a.b.pdf" = "a.b.tei.xml".
Proof. reflexivity. Qed.
Example the_url_ex1 :
  the_url Sample.config "processHeaderDocument"
  = "http://localhost:8070/api/processHeaderDocument".
Proof. reflexivity. Qed.
Example the_url_ex2 :
  the_url (mkConfig 1000 "grobid.example.org" "" (5 # 1)) "processReferences"
  = "http://grobid.example.org/api/processReferences".
Proof. reflexivity. Qed.
Example batches_ex1 :
  batches 2 ["a"; "b"; "c"] = [["a"; "b"]; ["c"]].
Proof. reflexivity. Qed.
Example batches_ex2 :
  batches 2 ["a"; "b"; "c"; "d"] = [["a"; "b"]; ["c"; "d"]].
Proof. reflexivity. Qed.
Example batches_ex3 : batches 1000 ["a"; "b"; "c"] = [["a"; "b"; "c"]].
Proof. reflexivity. Qed.
Example batches_ex4 : batches 1000 [] = [].
Proof. reflexivity. Qed.

(** ** Runs of the whole client *)

(** Three files, batches of two, every reply a success: two batches and
    three TEI files. *)
Example run_three_files :
  let w' := snd (process Sample.config (Some "in") (Some "out") 2
                   "processFulltextDocument" false false false false
                   (Sample.world [Response [60] 200; Response [61] 200;
                                  Response [62] 200])) in
  console w' = ["False"; "2 PDF files to process"; "in/a.pdf"; "in/b.pdf";
                "1 PDF files to process"; "in/c.pdf"]
  /\ fs_files w' !! "out/a.tei.xml" = Some [60]
  /\ fs_files w' !! "out/b.tei.xml" = Some [61]
  /\ fs_files w' !! "out/c.tei.xml" = Some [62]
  /\ length (requests w') = 3%nat.
Proof. vm_compute. repeat split. Qed.

(** A status 404 for the second file: the other two are written, the
    failure is on the console and in the log. *)
Example run_one_failure :
  let w' := snd (process Sample.config (Some "in") (Some "out") 2
                   "processFulltextDocument" false false false true
                   (Sample.world [Response [60] 200; Response [] 404;
                                  Response [62] 200])) in
  console w' = ["True"; "2 PDF files to process"; "in/a.pdf"; "in/b.pdf";
                "Processing failed with error 404";
                "1 PDF files to process"; "in/c.pdf"]
  /\ log_records w' = ["Failed to process in/b.pdf with status 404"]
  /\ fs_files w' !! "out/a.tei.xml" = Some [60]
  /\ fs_files w' !! "out/b.tei.xml" = None
  /\ fs_files w' !! "out/c.tei.xml" = Some [62].
Proof. vm_compute. repeat split. Qed.

(** A second run over the same directories writes nothing and sends
    nothing. *)
Example run_twice :
  let w1 := snd (process Sample.config (Some "in") (Some "out") 2
                   "processFulltextDocument" false false false false
                   (Sample.world [Response [60] 200; Response [61] 200;
                                  Response [62] 200; Response [63] 200])) in
  let w2 := snd (process Sample.config (Some "in") (Some "out") 2
                   "processFulltextDocument" false false false false w1) in
  fs_files w2 = fs_files w1 /\ requests w2 = requests w1 /\ remote w2 = remote w1.
Proof. vm_compute. repeat split. Qed.

(** The value of [--n] on examples. *)
Example concurrency_default :
  concurrency None (Sample.world []) = (Ok 10, Sample.world []).
Proof. reflexivity. Qed.
Example concurrency_given :
  concurrency (Some "4") (Sample.world []) = (Ok 4, Sample.world []).
Proof. reflexivity. Qed.
Example concurrency_not_a_number :
  concurrency (Some "ten") (Sample.world [])
  = (Ok 1,
     set_trace
       [Print "Invalid concurrency parameter n: 1 n = 10 will be used by default"]
       (Sample.world [])).
Proof. reflexivity. Qed.

(** ** The monad *)

Lemma bind_ok {A B} (m : M A) (f : A -> M B) (a : A) (w w' : World) :
  m w = (Ok a, w') -> (m ≫= f) w = f a w'.
Proof. intros H. unfold mbind, M_bind. rewrite H. reflexivity. Qed.

Lemma bind_raise {A B} (m : M A) (f : A -> M B) (e : exn) (w w' : World) :
  m w = (Raise e, w') -> (m ≫= f) w = (Raise e, w').
Proof. intros H. unfold mbind, M_bind. rewrite H. reflexivity. Qed.

Lemma bind_ext_at {A B} (w : World) (m m' : M A) (f : A -> M B) :
  m w = m' w -> (m ≫= f) w = (m' ≫= f) w.
Proof. intros H. unfold mbind, M_bind. rewrite H. reflexivity. Qed.

Lemma for_each_app {A} (body : A -> M unit) (l1 l2 : list A) (w : World) :
  for_each body (l1 ++ l2) w = (for_each body l1;; for_each body l2) w.
Proof.
  revert w. induction l1 as [|x l1 IH]; intros w; cbn [for_each app].
  - reflexivity.
  - unfold mbind, M_bind. destruct (body x w) as [[[]|e] w1]; [|reflexivity].
    rewrite IH. reflexivity.
Qed.

Lemma isfile_set_trace (p : string) (t : list event) (w : World) :
  isfile p (set_trace t w) = isfile p w.
Proof. reflexivity. Qed.

Lemma isfile_lookup (p : string) (w : World) :
  isfile p w = false <-> fs_files w !! p = None.
Proof. unfold isfile. destruct (fs_files w !! p); split; congruence. Qed.

(** ** [process_pdf]: one file *)

(** With an output directory, no TEI file yet and a source file that opens,
    [process_pdf] prints the name of the file, opens it, posts the request
    and goes on with the status. *)
Lemma process_pdf_request (cfg : Config) (depth : nat) (job : Job) (d : string)
    (w : World) :
  output job = Some d ->
  isfile (output_path d job) w = false ->
  isfile (pdf_file job) w = true ->
  process_pdf cfg (S depth) job w =
    ('(res_text, status) ← post (request_of cfg job);
     if status =? 503 then
       sleep (sleep_time cfg);;
       call_process_pdf (process_pdf cfg depth)
         [PStr (pdf_file job); val_of_output (output job)]
     else if status =? 200 then write_text (output_path d job) res_text
     else
       emit (Print (failure_notice status));;
       if error_log job
       then emit (LogWarning (failure_warning (pdf_file job) status))
       else mret tt)
    (set_trace (trace w ++ [Print (pdf_file job); OpenRead (pdf_file job)]) w).
Proof.
  intros Ho Hf Hs. cbn [process_pdf]. monad_unfold. rewrite Ho.
  unfold output_path, tei_name in Hf. rewrite Hf.
  unfold emit at 1. cbn beta iota.
  unfold open_rb. rewrite isfile_set_trace, Hs.
  unfold emit at 1. cbn beta iota.
  cbn [set_trace trace fs_files fs_dirs fs_wildcard fs_denied remote].
  rewrite <- app_assoc. reflexivity.
Qed.

(** With a TEI file already there the job returns at line 68. *)
Lemma process_pdf_skips (cfg : Config) (depth : nat) (job : Job) (d : string)
    (w : World) :
  output job = Some d ->
  isfile (output_path d job) w = true ->
  process_pdf cfg (S depth) job w = (Ok tt, w).
Proof.
  intros Ho Hf. cbn [process_pdf]. monad_unfold. rewrite Ho.
  unfold output_path, tei_name in Hf. rewrite Hf. reflexivity.
Qed.

(** The call of line 108 passes two values for seven parameters. *)
Lemma retry_call_raises (body : Job -> M unit) (f : string) (o : option string)
    (w : World) :
  call_process_pdf body [PStr f; val_of_output o] w = (Raise TypeError, w).
Proof. destruct o; reflexivity. Qed.

(** The call of line 60 passes all seven. *)
Lemma submit_call_binds (body : Job -> M unit) (job : Job) :
  call_process_pdf body (args_of_job job) = body job.
Proof. destruct job as [f [d|] s g h c e]; reflexivity. Qed.

(** On a status 503 the job sleeps and then fails with [TypeError]: the
    request is not sent again and nothing is written. *)
Lemma overload_raises (cfg : Config) (depth : nat) (job : Job) (d : string)
    (w : World) (text : list Z) (rest : list reply) :
  output job = Some d ->
  isfile (output_path d job) w = false ->
  isfile (pdf_file job) w = true ->
  remote w = Response text 503 :: rest ->
  Qle_bool 0 (sleep_time cfg) = true ->
  process_pdf cfg (S depth) job w =
    (Raise TypeError,
     set_remote rest
       (set_trace (trace w ++ [Print (pdf_file job); OpenRead (pdf_file job);
                               Post (request_of cfg job); Sleep (sleep_time cfg)]) w)).
Proof.
  intros Ho Hf Hs Hr Hq. rewrite (process_pdf_request cfg depth job d w Ho Hf Hs).
  unfold mbind, M_bind, post. cbn [set_trace trace fs_files fs_dirs fs_wildcard fs_denied remote].
  rewrite Hr. cbn [set_remote set_trace trace fs_files fs_dirs fs_wildcard fs_denied remote Z.eqb Pos.eqb].
  unfold sleep. rewrite Hq. unfold emit. rewrite retry_call_raises.
  f_equal. world_eq.
Qed.

(** C1. A job whose response has status 503 is to sleep for [sleep_time]
    seconds and then be processed again with the same source file, output
    directory, service name and option flags. The code does sleep, but its
    retry call names the source file and the output directory only: for
    [in/a.pdf], answered 503 and then 200, the call raises [TypeError],
    the second reply is never asked for and no TEI file is written. *)
Theorem overload_retry_is_not_made :
  process_pdf Sample.config recursion_limit (Sample.job false)
    (Sample.world [Response [] 503; Response [60; 47; 62] 200])
  = (Raise TypeError,
     set_remote [Response [60; 47; 62] 200]
       (set_trace [Print "in/a.pdf"; OpenRead "in/a.pdf";
                   Post (request_of Sample.config (Sample.job false));
                   Sleep (5 # 1)]
          (Sample.world [Response [] 503; Response [60; 47; 62] 200]))).
Proof.
  exact (overload_raises Sample.config 999 (Sample.job false) "out"
           (Sample.world [Response [] 503; Response [60; 47; 62] 200]) [] _
           eq_refl eq_refl eq_refl eq_refl eq_refl).
Qed.

(** C5. A job whose output path is already a regular file ends at once:
    [process_pdf] returns with the world as it found it, so no request is
    made (the trace, which records every request and every file opened, is
    unchanged) and the files, with the one at the output path, keep their
    content. *)
Theorem existing_output_is_skipped (cfg : Config) (depth : nat) (job : Job)
    (d : string) (w : World) :
  output job = Some d ->
  isfile (output_path d job) w = true ->
  process_pdf cfg (S depth) job w = (Ok tt, w).
Proof.
  intros Ho Hf. cbn [process_pdf].
  unfold mbind, M_bind, os_path_join. rewrite Ho.
  unfold mret, M_ret. fold (tei_name (pdf_file job)). fold (output_path d job).
  rewrite Hf. reflexivity.
Qed.

Lemma existing_output_is_skipped_witness :
  process_pdf Sample.config recursion_limit (Sample.job true)
    (Sample.world_done [Response [60; 47; 62] 200])
  = (Ok tt, Sample.world_done [Response [60; 47; 62] 200]).
Proof.
  apply (existing_output_is_skipped Sample.config 999 (Sample.job true) "out");
    reflexivity.
Defined.

(** *** UTF-8 *)

Lemma encode_cp_scalar (c : Z) :
  utf8.scalar c -> exists b, utf8.encode_cp c = Some b.
Proof.
  intros [Hr Hs]. unfold utf8.encode_cp.
  destruct (c <? 0) eqn:E0; [lia|].
  destruct (c <? 128) eqn:E1; [eauto|].
  destruct (c <? 2048) eqn:E2; [eauto|].
  destruct (c <? 65536) eqn:E3.
  - destruct ((55296 <=? c) && (c <=? 57343)) eqn:E4; [|eauto].
    apply andb_true_iff in E4. lia.
  - destruct (c <=? 1114111) eqn:E5; [eauto|lia].
Qed.

Lemma encode_scalar (t : list Z) :
  Forall utf8.scalar t -> exists bytes, utf8.encode t = Some bytes.
Proof.
  induction 1 as [|c t Hc _ [bs IH]]; cbn [utf8.encode].
  - eauto.
  - destruct (encode_cp_scalar c Hc) as [b ->]. rewrite IH. eauto.
Qed.

(** A value below [2 ^ k] fills the low bits of a multiple of [2 ^ k]. *)
Lemma lor_high_low (m k b : Z) :
  0 <= k -> 0 <= b < 2 ^ k -> Z.lor (m * 2 ^ k) b = m * 2 ^ k + b.
Proof.
  intros Hk Hb.
  assert (Hland : Z.land (m * 2 ^ k) b = 0).
  { apply Z.bits_inj'. intros n Hn. rewrite Z.land_spec, Z.bits_0.
    destruct (Z.lt_ge_cases n k) as [Hlt|Hge].
    - rewrite <- Z.shiftl_mul_pow2 by lia. rewrite Z.shiftl_spec_low by lia. reflexivity.
    - rewrite <- (Z.mod_small b (2 ^ k)) by lia.
      rewrite Z.mod_pow2_bits_high by lia. apply andb_false_r. }
  rewrite <- Z.lxor_lor by exact Hland. symmetry. apply Z.add_nocarry_lxor, Hland.
Qed.

Lemma land_63 (x : Z) : 0 <= x -> Z.land x 0x3F = x mod 64.
Proof. intros Hx. change 0x3F with (Z.ones 6). rewrite Z.land_ones by lia. reflexivity. Qed.

Lemma cont_byte (x : Z) : 0 <= x -> Z.lor 0x80 (Z.land x 0x3F) = 0x80 + x mod 64.
Proof.
  intros Hx. rewrite land_63 by exact Hx.
  apply (lor_high_low 2 6); [lia|]. change (2 ^ 6) with 64. div_lia.
Qed.

(** The bytes of a code point, by division. *)
Lemma encode_cp_arith (c : Z) :
  utf8.scalar c ->
  utf8.encode_cp c =
    Some (if c <? 0x80 then [c]
          else if c <? 0x800 then [0xC0 + c / 64; 0x80 + c mod 64]
          else if c <? 0x10000 then
            [0xE0 + c / 4096; 0x80 + (c / 64) mod 64; 0x80 + c mod 64]
          else [0xF0 + c / 262144; 0x80 + (c / 4096) mod 64;
                0x80 + (c / 64) mod 64; 0x80 + c mod 64]).
Proof.
  intros [Hr Hs]. unfold utf8.encode_cp.
  destruct (c <? 0) eqn:E0; [lia|].
  destruct (c <? 128) eqn:E1; [reflexivity|].
  rewrite !Z.shiftr_div_pow2 by lia.
  change (2 ^ 6) with 64. change (2 ^ 12) with 4096. change (2 ^ 18) with 262144.
  rewrite !cont_byte by div_lia.
  destruct (c <? 2048) eqn:E2.
  - rewrite (lor_high_low 6 5) by (change (2 ^ 5) with 32; div_lia). reflexivity.
  - destruct (c <? 65536) eqn:E3.
    + destruct ((55296 <=? c) && (c <=? 57343)) eqn:E4;
        [apply andb_true_iff in E4; lia|].
      rewrite (lor_high_low 14 4) by (change (2 ^ 4) with 16; div_lia). reflexivity.
    + destruct (c <=? 1114111) eqn:E5; [|lia].
      rewrite (lor_high_low 30 3) by (change (2 ^ 3) with 8; div_lia). reflexivity.
Qed.

Lemma decode_encode_cp (c : Z) (b bs : list Z) :
  utf8.scalar c ->
  utf8.encode_cp c = Some b ->
  utf8.decode_from (b ++ bs) 0 0 = cons c <$> utf8.decode_from bs 0 0.
Proof.
  intros Hc Hb. rewrite (encode_cp_arith c Hc) in Hb. injection Hb as <-.
  destruct Hc as [Hr Hs].
  destruct (c <? 128) eqn:E1; [apply Z.ltb_lt in E1|apply Z.ltb_ge in E1].
  - cbn [app utf8.decode_from]. decide_cmp. reflexivity.
  - destruct (c <? 2048) eqn:E2; [apply Z.ltb_lt in E2|apply Z.ltb_ge in E2].
    + cbn [app utf8.decode_from andb]. decide_cmp. cbn [andb].
      replace ((192 + c / 64 - 192) * 64 + (128 + c mod 64 - 128)) with c by div_lia.
      reflexivity.
    + destruct (c <? 65536) eqn:E3; [apply Z.ltb_lt in E3|apply Z.ltb_ge in E3].
      * cbn [app utf8.decode_from andb]. decide_cmp. cbn [andb].
        replace (((224 + c / 4096 - 224) * 64 + (128 + (c / 64) mod 64 - 128)) * 64
                 + (128 + c mod 64 - 128)) with c by div_lia.
        reflexivity.
      * cbn [app utf8.decode_from andb]. decide_cmp. cbn [andb].
        replace ((((240 + c / 262144 - 240) * 64 + (128 + (c / 4096) mod 64 - 128)) * 64
                  + (128 + (c / 64) mod 64 - 128)) * 64
                 + (128 + c mod 64 - 128)) with c by div_lia.
        reflexivity.
Qed.

(** What is written reads back as the text. *)
Lemma decode_encode (t bytes : list Z) :
  Forall utf8.scalar t ->
  utf8.encode t = Some bytes ->
  utf8.decode bytes = Some t.
Proof.
  intros Ht. revert bytes.
  induction Ht as [|c t Hc _ IH]; intros bytes Hb; cbn [utf8.encode] in Hb.
  - injection Hb as <-. reflexivity.
  - destruct (utf8.encode_cp c) as [b|] eqn:Ecp; [|discriminate].
    destruct (utf8.encode t) as [bs|] eqn:Et; [|discriminate].
    injection Hb as <-. unfold utf8.decode.
    rewrite (decode_encode_cp c b bs Hc Ecp).
    fold (utf8.decode bs). rewrite (IH bs eq_refl). reflexivity.
Qed.

(** The encoding is made of bytes. *)
Lemma encode_cp_bytes (c : Z) (b : list Z) :
  utf8.scalar c -> utf8.encode_cp c = Some b -> Forall (fun x => 0 <= x < 256) b.
Proof.
  intros Hc Hb. rewrite (encode_cp_arith c Hc) in Hb. injection Hb as <-.
  destruct Hc as [Hr Hs].
  destruct (c <? 128) eqn:E1; [apply Z.ltb_lt in E1|apply Z.ltb_ge in E1].
  - repeat constructor; lia.
  - destruct (c <? 2048) eqn:E2; [apply Z.ltb_lt in E2|apply Z.ltb_ge in E2].
    + repeat constructor; div_lia.
    + destruct (c <? 65536) eqn:E3; [apply Z.ltb_lt in E3|apply Z.ltb_ge in E3];
        repeat constructor; div_lia.
Qed.

Lemma encode_bytes (t bytes : list Z) :
  Forall utf8.scalar t ->
  utf8.encode t = Some bytes ->
  Forall (fun x => 0 <= x < 256) bytes.
Proof.
  intros Ht. revert bytes.
  induction Ht as [|c t Hc _ IH]; intros bytes Hb; cbn [utf8.encode] in Hb.
  - injection Hb as <-. constructor.
  - destruct (utf8.encode_cp c) as [b|] eqn:Ecp; [|discriminate].
    destruct (utf8.encode t) as [bs|] eqn:Et; [|discriminate].
    injection Hb as <-. apply Forall_app. split.
    + exact (encode_cp_bytes c b Hc Ecp).
    + apply IH. reflexivity.
Qed.

(** Text of ASCII characters is written byte for byte. *)
Lemma encode_ascii (t : list Z) :
  Forall (fun c => 0 <= c < 128) t -> utf8.encode t = Some t.
Proof.
  induction 1 as [|c t Hc _ IH]; cbn [utf8.encode]; [reflexivity|].
  rewrite IH. unfold utf8.encode_cp.
  destruct (c <? 0) eqn:E0; [apply Z.ltb_lt in E0; lia|].
  destruct (c <? 128) eqn:E1; [reflexivity|apply Z.ltb_ge in E1; lia].
Qed.

(** C7. A job whose response has status 200 writes the body, encoded in
    UTF-8, to [output_path d job], which is the output directory joined with
    the base name of the source file, its extension replaced by [.tei.xml];
    the file reads back as the body and the other files are unchanged. The
    body is text that UTF-8 can encode and the output path can be opened
    for writing. *)
Theorem ok_response_is_written (cfg : Config) (depth : nat) (job : Job)
    (d : string) (w : World) (text : list Z) (rest : list reply) :
  output job = Some d ->
  isfile (output_path d job) w = false ->
  isfile (pdf_file job) w = true ->
  remote w = Response text 200 :: rest ->
  output_path d job ∉ fs_denied w ->
  Forall utf8.scalar text ->
  exists bytes w',
    utf8.encode text = Some bytes
    /\ utf8.decode bytes = Some text
    /\ process_pdf cfg (S depth) job w = (Ok tt, w')
    /\ fs_files w' = <[output_path d job := bytes]> (fs_files w)
    /\ output_path d job
       = posixpath.join d
           (posixpath.splitext_root (ntpath.basename (pdf_file job)) +:+ ".tei.xml").
Proof.
  intros Ho Hf Hs Hr Hd Ht.
  destruct (encode_scalar text Ht) as [bytes Hb].
  exists bytes. eexists. split; [exact Hb|].
  split; [exact (decode_encode text bytes Ht Hb)|].
  rewrite (process_pdf_request cfg depth job d w Ho Hf Hs).
  unfold mbind, M_bind, post.
  cbn [set_trace trace fs_files fs_dirs fs_wildcard fs_denied remote].
  rewrite Hr. cbn [Z.eqb Pos.eqb]. unfold write_text.
  cbn [set_remote set_trace trace fs_files fs_dirs fs_wildcard fs_denied remote].
  rewrite decide_False by exact Hd. rewrite Hb.
  split; [reflexivity|]. split; reflexivity.
Qed.

Lemma ok_response_is_written_witness :
  exists bytes w',
    utf8.encode [60; 233; 62] = Some bytes
    /\ utf8.decode bytes = Some [60; 233; 62]
    /\ process_pdf Sample.config recursion_limit (Sample.job false)
         (Sample.world [Response [60; 233; 62] 200]) = (Ok tt, w')
    /\ fs_files w'
       = <["out/a.tei.xml" := bytes]> (fs_files (Sample.world [Response [60; 233; 62] 200]))
    /\ "out/a.tei.xml" = posixpath.join "out" "a.tei.xml".
Proof.
  apply (ok_response_is_written Sample.config 999 (Sample.job false) "out"
           (Sample.world [Response [60; 233; 62] 200]) [60; 233; 62] []);
    try reflexivity.
  - vm_compute. set_solver.
  - repeat constructor; unfold utf8.scalar; lia.
Defined.

(** *** The data fields *)

Lemma the_data_lookup (g h c : bool) (k : string) :
  the_data g h c !! k =
    if decide (k = "generateIDs") then (if g then Some "1" else None)
    else if decide (k = "consolidateHeader") then (if h then Some "1" else None)
    else if decide (k = "consolidateCitations") then (if c then Some "1" else None)
    else None.
Proof.
  unfold the_data.
  repeat case_decide; subst;
    destruct g, h, c;
    repeat (rewrite lookup_insert_ne by congruence);
    rewrite ?lookup_insert_eq, ?lookup_empty; try reflexivity; try congruence.
Qed.

(** What follows the request in the trace of a job, whatever the reply. *)
Lemma process_pdf_after_post (cfg : Config) (depth : nat) (job : Job) (d : string)
    (w : World) :
  output job = Some d ->
  isfile (output_path d job) w = false ->
  isfile (pdf_file job) w = true ->
  exists r w' after,
    process_pdf cfg (S depth) job w = (r, w')
    /\ trace w' = trace w ++ [Print (pdf_file job); OpenRead (pdf_file job);
                              Post (request_of cfg job)] ++ after.
Proof.
  intros Ho Hf Hs. rewrite (process_pdf_request cfg depth job d w Ho Hf Hs).
  unfold mbind, M_bind, post.
  cbn [set_trace trace fs_files fs_dirs fs_wildcard fs_denied remote].
  destruct (remote w) as [|[text status|] rest].
  - do 2 eexists. exists []. split; [reflexivity|].
    cbn [trace set_trace]. rewrite <- app_assoc. reflexivity.
  - destruct (status =? 503).
    + unfold sleep. destruct (Qle_bool 0 (sleep_time cfg)).
      * unfold emit. rewrite retry_call_raises.
        do 2 eexists. exists [Sleep (sleep_time cfg)]. split; [reflexivity|].
        cbn [trace set_trace set_remote]. rewrite <- !app_assoc. reflexivity.
      * do 2 eexists. exists []. split; [reflexivity|].
        cbn [trace set_trace set_remote]. rewrite <- !app_assoc. reflexivity.
    + destruct (status =? 200).
      * unfold write_text.
        cbn [set_remote set_trace trace fs_files fs_dirs fs_wildcard fs_denied remote].
        case_decide; [|destruct (utf8.encode text)];
          (do 2 eexists; exists []; split; [reflexivity|]);
          cbn [trace set_trace set_remote set_files]; rewrite <- !app_assoc; reflexivity.
      * unfold emit, mret, M_ret. destruct (error_log job).
        -- do 2 eexists.
           exists [Print (failure_notice status);
                   LogWarning (failure_warning (pdf_file job) status)].
           split; [reflexivity|].
           cbn [trace set_trace set_remote]. rewrite <- !app_assoc. reflexivity.
        -- do 2 eexists. exists [Print (failure_notice status)].
           split; [reflexivity|].
           cbn [trace set_trace set_remote]. rewrite <- !app_assoc. reflexivity.
  - do 2 eexists. exists []. split; [reflexivity|].
    cbn [trace set_trace set_remote]. rewrite <- !app_assoc. reflexivity.
Qed.

(** C8. The request of a job (the one request it posts, once the output
    path is found free and the source file is opened) carries the data field
    [generateIDs] exactly when the flag is set, with the value ['1'], and the
    same for [consolidateHeader] and [consolidateCitations]; it carries no
    other data field. *)
Theorem data_fields_follow_flags (cfg : Config) (depth : nat) (job : Job)
    (d : string) (w : World) :
  output job = Some d ->
  isfile (output_path d job) w = false ->
  isfile (pdf_file job) w = true ->
  exists r w' req after,
    process_pdf cfg (S depth) job w = (r, w')
    /\ trace w' = trace w ++ [Print (pdf_file job); OpenRead (pdf_file job);
                              Post req] ++ after
    /\ req_data req !! "generateIDs"
       = (if generateIDs job then Some "1" else None)
    /\ req_data req !! "consolidateHeader"
       = (if consolidate_header job then Some "1" else None)
    /\ req_data req !! "consolidateCitations"
       = (if consolidate_citations job then Some "1" else None)
    /\ (forall k : string,
          k <> "generateIDs" -> k <> "consolidateHeader" ->
          k <> "consolidateCitations" -> req_data req !! k = None).
Proof.
  intros Ho Hf Hs.
  destruct (process_pdf_after_post cfg depth job d w Ho Hf Hs)
    as (r & w' & after & Hrun & Htr).
  exists r, w', (request_of cfg job), after.
  split; [exact Hrun|]. split; [exact Htr|].
  cbn [request_of req_data]. rewrite !the_data_lookup.
  repeat split; try reflexivity.
  intros k H1 H2 H3. rewrite the_data_lookup.
  rewrite !decide_False by assumption. reflexivity.
Qed.

Lemma data_fields_follow_flags_witness :
  exists r w' req after,
    process_pdf Sample.config recursion_limit (Sample.job false)
      (Sample.world [Response [] 404]) = (r, w')
    /\ trace w' = [] ++ [Print "in/a.pdf"; OpenRead "in/a.pdf"; Post req] ++ after
    /\ req_data req !! "generateIDs" = Some "1"
    /\ req_data req !! "consolidateHeader" = None
    /\ req_data req !! "consolidateCitations" = Some "1"
    /\ (forall k : string,
          k <> "generateIDs" -> k <> "consolidateHeader" ->
          k <> "consolidateCitations" -> req_data req !! k = None).
Proof.
  apply (data_fields_follow_flags Sample.config 999 (Sample.job false) "out"
           (Sample.world [Response [] 404])); reflexivity.
Defined.

(** C9. A job whose response has a status other than 200 and 503 ends
    without an exception; it prints the notice of the failure, and records
    the warning that names the source file and the status when, and only
    when, [error_log] is set. The files are those of before: no output file
    is written. *)
Theorem other_status_is_reported (cfg : Config) (depth : nat) (job : Job)
    (d : string) (w : World) (text : list Z) (status : Z) (rest : list reply) :
  output job = Some d ->
  isfile (output_path d job) w = false ->
  isfile (pdf_file job) w = true ->
  remote w = Response text status :: rest ->
  status <> 200 ->
  status <> 503 ->
  process_pdf cfg (S depth) job w =
    (Ok tt,
     set_remote rest
       (set_trace
          (trace w ++ [Print (pdf_file job); OpenRead (pdf_file job);
                       Post (request_of cfg job); Print (failure_notice status)]
                  ++ (if error_log job
                      then [LogWarning (failure_warning (pdf_file job) status)]
                      else [])) w)).
Proof.
  intros Ho Hf Hs Hr H200 H503.
  rewrite (process_pdf_request cfg depth job d w Ho Hf Hs).
  unfold mbind, M_bind, post.
  cbn [set_trace trace fs_files fs_dirs fs_wildcard fs_denied remote].
  rewrite Hr.
  apply Z.eqb_neq in H200, H503. rewrite H200, H503.
  unfold emit, mret, M_ret. destruct (error_log job); f_equal; world_eq.
Qed.

Lemma other_status_is_reported_witness :
  process_pdf Sample.config recursion_limit (Sample.job true)
    (Sample.world [Response [] 404; Response [60] 200])
  = (Ok tt,
     set_remote [Response [60] 200]
       (set_trace [Print "in/a.pdf"; OpenRead "in/a.pdf";
                   Post (request_of Sample.config (Sample.job true));
                   Print "Processing failed with error 404";
                   LogWarning "Failed to process in/a.pdf with status 404"]
          (Sample.world [Response [] 404; Response [60] 200]))).
Proof.
  apply (other_status_is_reported Sample.config 999 (Sample.job true) "out"
           (Sample.world [Response [] 404; Response [60] 200]) [] 404
           [Response [60] 200]); try reflexivity; lia.
Defined.

(** ** Batches *)

(** The loop dispatches full batches and keeps less than a batch. *)
Lemma batches_loop_spec (B : Z) (found pdf_files : list string)
    (bs : list (list string)) (rest : list string) :
  1 <= B ->
  Z.of_nat (length pdf_files) < B ->
  batches_loop B found pdf_files = (bs, rest) ->
  concat bs ++ rest = pdf_files ++ found
  /\ Forall (fun b => Z.of_nat (length b) = B) bs
  /\ Z.of_nat (length bs) = (Z.of_nat (length pdf_files) + Z.of_nat (length found)) / B
  /\ Z.of_nat (length rest) = (Z.of_nat (length pdf_files) + Z.of_nat (length found)) mod B.
Proof.
  intros HB. revert pdf_files bs rest.
  induction found as [|f found IH]; intros acc bs rest Hacc Hloop;
    cbn [batches_loop] in Hloop.
  - injection Hloop as <- <-. cbn [concat length app]. rewrite app_nil_r, Z.add_0_r.
    rewrite Z.div_small, Z.mod_small by lia.
    split; [reflexivity|]. split; [constructor|]. split; reflexivity.
  - assert (Hlen : Z.of_nat (length (acc ++ [f])) = Z.of_nat (length acc) + 1)
      by (rewrite length_app; cbn [length]; lia).
    assert (Hsum : Z.of_nat (length acc) + Z.of_nat (length (f :: found))
                   = Z.of_nat (length acc) + 1 + Z.of_nat (length found))
      by (cbn [length]; lia).
    rewrite Hsum.
    destruct (Z.of_nat (length (acc ++ [f])) =? B) eqn:E.
    + apply Z.eqb_eq in E.
      destruct (batches_loop B found []) as [bs' rest'] eqn:Hrec.
      injection Hloop as <- <-.
      destruct (IH [] bs' rest') as (Hc & Hall & Hn & Hr); [cbn; lia|exact Hrec|].
      cbn [length app] in Hc, Hn, Hr. rewrite Z.add_0_l in Hn, Hr.
      replace (Z.of_nat (length acc) + 1 + Z.of_nat (length found))
        with (1 * B + Z.of_nat (length found)) by lia.
      rewrite Z.div_add_l by lia.
      rewrite (Z.add_comm (1 * B)), Z_mod_plus_full.
      repeat split.
      * cbn [concat]. rewrite <- !app_assoc, Hc. reflexivity.
      * constructor; [exact E|exact Hall].
      * cbn [length]. lia.
      * exact Hr.
    + apply Z.eqb_neq in E.
      destruct (IH (acc ++ [f]) bs rest) as (Hc & Hall & Hn & Hr); [lia|exact Hloop|].
      rewrite Hlen in Hn, Hr.
      repeat split; try assumption.
      rewrite Hc, <- app_assoc. reflexivity.
Qed.

Lemma ceil_div_spec (N B : Z) :
  0 <= N -> 1 <= B ->
  ceil_div N B = N / B + (if N mod B =? 0 then 0 else 1).
Proof.
  intros HN HB. unfold ceil_div.
  pose proof (Z.div_mod N B ltac:(lia)) as Hdm.
  pose proof (Z.mod_pos_bound N B ltac:(lia)) as Hm.
  destruct (N mod B =? 0) eqn:E.
  - apply Z.eqb_eq in E. symmetry.
    apply (Z.div_unique _ _ _ (B - 1)); lia.
  - apply Z.eqb_neq in E. symmetry.
    apply (Z.div_unique _ _ _ (N mod B - 1)); lia.
Qed.

(** The loop with its calls is the loop of [batches_loop], each batch
    dispatched in turn. *)
Lemma process_loop_batches (dispatch : list string -> M unit) (B : Z)
    (found pdf_files : list string) (w : World) :
  process_loop dispatch B found pdf_files w
  = (for_each dispatch (fst (batches_loop B found pdf_files));;
     mret (snd (batches_loop B found pdf_files))) w.
Proof.
  revert pdf_files w.
  induction found as [|f found IH]; intros acc w;
    cbn [process_loop batches_loop].
  - reflexivity.
  - destruct (Z.of_nat (length (acc ++ [f])) =? B).
    + destruct (batches_loop B found []) as [bs rest] eqn:Hrec.
      cbn [fst snd for_each]. unfold mbind, M_bind.
      destruct (dispatch (acc ++ [f]) w) as [[[]|e] w1]; [|reflexivity].
      rewrite IH, Hrec. reflexivity.
    + apply IH.
Qed.

Lemma dispatch_all_batches (dispatch : list string -> M unit) (B : Z)
    (found : list string) (w : World) :
  dispatch_all dispatch B found w = for_each dispatch (batches B found) w.
Proof.
  unfold dispatch_all, batches.
  rewrite (bind_ext_at w (process_loop dispatch B found [])
             (for_each dispatch (fst (batches_loop B found []));;
              mret (snd (batches_loop B found []))))
    by apply process_loop_batches.
  destruct (batches_loop B found []) as [bs rest]. cbn [fst snd].
  unfold mbind, M_bind, mret, M_ret.
  destruct (0 <? length rest)%nat eqn:E.
  - rewrite for_each_app. unfold mbind, M_bind.
    destruct (for_each dispatch bs w) as [[[]|e] w1]; [|reflexivity].
    rewrite E. cbn [for_each]. unfold mbind, M_bind, mret, M_ret.
    destruct (dispatch rest w1) as [[[]|e] w2]; reflexivity.
  - destruct (for_each dispatch bs w) as [[[]|e] w1]; [|reflexivity].
    rewrite E. reflexivity.
Qed.

(** C4. For [N] files found and a batch size [B >= 1], [process] dispatches
    the batches [batches B found], one call of [process_batch] each, in
    order: put end to end they are the files found, in the order of
    discovery; there are [ceil(N / B)] of them; each has [B] files but the
    last, which has [N mod B] files, or [B] when [N] is a multiple of [B];
    a single batch holds all the files when [N < B]; none is dispatched
    when [N = 0]. *)
Theorem batches_partition (B : Z) (found : list string) :
  1 <= B ->
  let N := Z.of_nat (length found) in
  let bs := batches B found in
  (forall (dispatch : list string -> M unit) (w : World),
     dispatch_all dispatch B found w = for_each dispatch bs w)
  /\ concat bs = found
  /\ Z.of_nat (length bs) = ceil_div N B
  /\ (forall (i : nat) (b : list string),
        bs !! i = Some b ->
        Z.of_nat (length b)
        = if decide (S i < length bs)%nat then B
          else if N mod B =? 0 then B else N mod B)
  /\ (0 < N < B -> bs = [found])
  /\ (N = 0 -> bs = []).
Proof.
  intros HB N bs.
  split; [intros dispatch w; apply dispatch_all_batches|].
  subst bs. unfold batches.
  destruct (batches_loop B found []) as [bs rest] eqn:Hloop.
  destruct (batches_loop_spec B found [] bs rest HB ltac:(cbn; lia) Hloop)
    as (Hc & Hall & Hn & Hr).
  cbn [length app] in Hc, Hn, Hr. rewrite Z.add_0_l in Hn, Hr. fold N in Hn, Hr.
  assert (HN : 0 <= N) by (subst N; lia).
  pose proof (Z.mod_pos_bound N B ltac:(lia)) as Hm.
  rewrite (ceil_div_spec N B HN HB).
  destruct (0 <? length rest)%nat eqn:E.
  - apply Nat.ltb_lt in E.
    assert (Hnz : (N mod B =? 0) = false) by (apply Z.eqb_neq; lia).
    rewrite Hnz. repeat split.
    + rewrite concat_app. cbn [concat]. rewrite app_nil_r. exact Hc.
    + rewrite length_app. cbn [length]. lia.
    + intros i b Hi. rewrite length_app. cbn [length].
      destruct (decide (i < length bs)%nat) as [Hlt|Hge].
      * rewrite lookup_app_l in Hi by exact Hlt.
        rewrite decide_True by lia.
        rewrite Forall_forall in Hall. apply Hall.
        apply list_elem_of_lookup. eauto.
      * rewrite decide_False by lia.
        rewrite lookup_app_r in Hi by lia.
        destruct (i - length bs)%nat; cbn in Hi; [|discriminate].
        injection Hi as <-. exact Hr.
    + intros Hsmall. rewrite Z.div_small in Hn by lia.
      destruct bs; [|cbn [length] in Hn; lia].
      cbn [concat app] in Hc. subst rest. reflexivity.
    + intros H0. rewrite H0, Z.mod_0_l in Hr by lia. lia.
  - apply Nat.ltb_ge in E.
    assert (Hrest : rest = []) by (destruct rest; [reflexivity|cbn [length] in E; lia]).
    subst rest. cbn [length] in Hr.
    assert (Hz : (N mod B =? 0) = true) by (apply Z.eqb_eq; lia).
    rewrite Hz. repeat split.
    + rewrite app_nil_r in Hc. exact Hc.
    + lia.
    + intros i b Hi.
      assert (Hb : Z.of_nat (length b) = B).
      { rewrite Forall_forall in Hall. apply Hall.
        apply list_elem_of_lookup. eauto. }
      case_decide; exact Hb.
    + intros Hsmall. rewrite Z.mod_small in Hr by lia. lia.
    + intros H0. rewrite H0, Z.div_0_l in Hn by lia.
      destruct bs; [reflexivity|cbn [length] in Hn; lia].
Qed.

Lemma batches_partition_witness :
  (forall (dispatch : list string -> M unit) (w : World),
     dispatch_all dispatch 2 ["in/a.pdf"; "in/b.pdf"; "in/c.pdf"] w
     = for_each dispatch [["in/a.pdf"; "in/b.pdf"]; ["in/c.pdf"]] w)
  /\ concat [["in/a.pdf"; "in/b.pdf"]; ["in/c.pdf"]]
     = ["in/a.pdf"; "in/b.pdf"; "in/c.pdf"]
  /\ Z.of_nat (length [["in/a.pdf"; "in/b.pdf"]; ["in/c.pdf"]]) = 2
  /\ (forall (i : nat) (b : list string),
        [["in/a.pdf"; "in/b.pdf"]; ["in/c.pdf"]] !! i = Some b ->
        Z.of_nat (length b) = if decide (S i < 2)%nat then 2 else 1)
  /\ (0 < 3 < 2 -> [["in/a.pdf"; "in/b.pdf"]; ["in/c.pdf"]]
                   = [["in/a.pdf"; "in/b.pdf"; "in/c.pdf"]])
  /\ (3 = 0 -> [["in/a.pdf"; "in/b.pdf"]; ["in/c.pdf"]] = []).
Proof.
  apply (batches_partition 2 ["in/a.pdf"; "in/b.pdf"; "in/c.pdf"]). lia.
Defined.

(** ** What a run does to the files *)

(** A source file that cannot be opened ends the job with [OSError]. *)
Lemma process_pdf_unreadable (cfg : Config) (depth : nat) (job : Job) (d : string)
    (w : World) :
  output job = Some d ->
  isfile (output_path d job) w = false ->
  isfile (pdf_file job) w = false ->
  process_pdf cfg (S depth) job w
  = (Raise OSError, set_trace (trace w ++ [Print (pdf_file job)]) w).
Proof.
  intros Ho Hf Hs. cbn [process_pdf]. monad_unfold. rewrite Ho.
  unfold output_path, tei_name in Hf. rewrite Hf.
  unfold emit at 1. cbn beta iota.
  unfold open_rb. rewrite isfile_set_trace, Hs. reflexivity.
Qed.

(** Without an output directory the job ends at line 66. *)
Lemma process_pdf_no_output (cfg : Config) (depth : nat) (job : Job) (w : World) :
  output job = None ->
  process_pdf cfg (S depth) job w = (Raise TypeError, w).
Proof. intros Ho. cbn [process_pdf]. monad_unfold. rewrite Ho. reflexivity. Qed.

(** The depth left does not matter once one call is allowed: the call of
    line 108 never enters the body again. *)
Lemma process_pdf_depth (cfg : Config) (d1 d2 : nat) (job : Job) (w : World) :
  process_pdf cfg (S d1) job w = process_pdf cfg (S d2) job w.
Proof.
  destruct (output job) as [d|] eqn:Ho;
    [|rewrite !process_pdf_no_output by exact Ho; reflexivity].
  destruct (isfile (output_path d job) w) eqn:Hf;
    [rewrite !(process_pdf_skips cfg _ job d w Ho Hf); reflexivity|].
  destruct (isfile (pdf_file job) w) eqn:Hs;
    [|rewrite !(process_pdf_unreadable cfg _ job d w Ho Hf Hs); reflexivity].
  rewrite !(process_pdf_request cfg _ job d w Ho Hf Hs).
  unfold mbind, M_bind.
  destruct (post (request_of cfg job) _) as [[[text status]|e] w1]; [|reflexivity].
  destruct (status =? 503); [|reflexivity].
  destruct (sleep (sleep_time cfg) w1) as [[[]|e] w2]; [|reflexivity].
  rewrite Ho. rewrite !retry_call_raises. reflexivity.
Qed.

(** One call of [process_pdf] leaves the files alone or creates the file at
    its output path, where it had found none. *)
Lemma process_pdf_files (cfg : Config) (depth : nat) (job : Job) (w : World) :
  let w' := snd (process_pdf cfg depth job w) in
  fs_files w' = fs_files w
  \/ exists d content,
       output job = Some d
       /\ isfile (output_path d job) w = false
       /\ fs_files w' = <[output_path d job := content]> (fs_files w).
Proof.
  destruct depth as [|depth]; [left; reflexivity|].
  destruct (output job) as [d|] eqn:Ho;
    [|left; rewrite process_pdf_no_output by exact Ho; reflexivity].
  destruct (isfile (output_path d job) w) eqn:Hf;
    [left; rewrite (process_pdf_skips cfg depth job d w Ho Hf); reflexivity|].
  destruct (isfile (pdf_file job) w) eqn:Hs;
    [|left; rewrite (process_pdf_unreadable cfg depth job d w Ho Hf Hs); reflexivity].
  rewrite (process_pdf_request cfg depth job d w Ho Hf Hs).
  unfold mbind, M_bind, post.
  cbn [set_trace trace fs_files fs_dirs fs_wildcard fs_denied remote].
  destruct (remote w) as [|[text status|] rest]; [left; reflexivity| |left; reflexivity].
  destruct (status =? 503).
  - left. unfold sleep. destruct (Qle_bool 0 (sleep_time cfg)); [|reflexivity].
    unfold emit. rewrite retry_call_raises. reflexivity.
  - destruct (status =? 200).
    + unfold write_text.
      cbn [set_remote set_trace trace fs_files fs_dirs fs_wildcard fs_denied remote].
      case_decide; [left; reflexivity|].
      right. exists d.
      destruct (utf8.encode text) as [bytes|]; eexists; (split; [reflexivity|]);
        (split; [exact Hf|]); reflexivity.
    + left. unfold emit, mret, M_ret. destruct (error_log job); reflexivity.
Qed.

Section Preservation.

(** A relation between the world before and the world after that holds
    across one step holds across a run. *)
Variable P : World -> World -> Prop.
Hypothesis P_refl : forall w, P w w.
Hypothesis P_trans : forall w1 w2 w3, P w1 w2 -> P w2 w3 -> P w1 w3.
Hypothesis P_trace : forall w t, P w (set_trace t w).

Lemma keeps_ret {A} (a : A) : keeps P (mret a).
Proof. intros w. apply P_refl. Qed.

Lemma keeps_raise {A} (e : exn) : keeps P (@raise A e).
Proof. intros w. apply P_refl. Qed.

Lemma keeps_bind {A B} (m : M A) (f : A -> M B) :
  keeps P m -> (forall a, keeps P (f a)) -> keeps P (m ≫= f).
Proof.
  intros Hm Hf w. unfold mbind, M_bind.
  specialize (Hm w). destruct (m w) as [[a|e] w1]; cbn [snd] in *.
  - eapply P_trans; [exact Hm|apply Hf].
  - exact Hm.
Qed.

Lemma keeps_submit (call : M unit) : keeps P call -> keeps P (submit call).
Proof. intros H w. exact (H w). Qed.

Lemma keeps_for_each {A} (body : A -> M unit) (l : list A) :
  (forall x, keeps P (body x)) -> keeps P (for_each body l).
Proof.
  intros Hb. induction l as [|x l IH]; cbn [for_each].
  - apply keeps_ret.
  - apply keeps_bind; [apply Hb|intros _; exact IH].
Qed.

Lemma keeps_process_loop (dispatch : list string -> M unit) (B : Z)
    (found pdf_files : list string) :
  (forall l, keeps P (dispatch l)) -> keeps P (process_loop dispatch B found pdf_files).
Proof.
  intros Hd. revert pdf_files.
  induction found as [|f found IH]; intros pdf_files; cbn [process_loop].
  - apply keeps_ret.
  - destruct (Z.of_nat (length (pdf_files ++ [f])) =? B).
    + apply keeps_bind; [apply Hd|intros _; apply IH].
    + apply IH.
Qed.

Lemma keeps_dispatch_all (dispatch : list string -> M unit) (B : Z)
    (found : list string) :
  (forall l, keeps P (dispatch l)) -> keeps P (dispatch_all dispatch B found).
Proof.
  intros Hd. unfold dispatch_all.
  apply keeps_bind; [apply keeps_process_loop, Hd|].
  intros l. destruct (0 <? length l)%nat; [apply Hd|apply keeps_ret].
Qed.

Lemma keeps_emit (e : event) : keeps P (emit e).
Proof. intros w. apply P_trace. Qed.

Lemma keeps_call (body : Job -> M unit) (args : list pyval) :
  (forall job, bind_args args = Some job -> keeps P (body job)) ->
  keeps P (call_process_pdf body args).
Proof.
  intros Hb. unfold call_process_pdf.
  destruct (bind_args args) as [job|]; [apply Hb; reflexivity|apply keeps_raise].
Qed.

Lemma bind_args_output (f s : string) (o : option string) (g h c e : bool)
    (job : Job) :
  bind_args [PStr f; val_of_output o; PStr s; PBool g; PBool h; PBool c; PBool e]
  = Some job ->
  output job = o.
Proof. destruct o; cbn; intros [= <-]; reflexivity. Qed.

Section Orchestrator.

(** The jobs of a run share its output directory. *)
Variable cfg : Config.
Variable out : option string.
Hypothesis P_job :
  forall job, output job = out ->
              keeps P (process_pdf cfg recursion_limit job).

Lemma keeps_process_batch (pdf_files : list string) (n : Z) (service : string)
    (g h c e : bool) :
  keeps P (process_batch cfg pdf_files out n service g h c e).
Proof.
  unfold process_batch. apply keeps_bind; [apply keeps_emit|intros _].
  destruct (n <=? 0); [apply keeps_raise|].
  apply keeps_for_each. intros f. apply keeps_submit, keeps_call.
  intros job Hj. apply P_job. exact (bind_args_output _ _ _ _ _ _ _ _ Hj).
Qed.

Lemma keeps_process (input : option string) (n : Z) (service : string)
    (g h c e : bool) :
  keeps P (process cfg input out n service g h c e).
Proof.
  unfold process. apply keeps_bind; [apply keeps_emit|intros _].
  apply keeps_bind; [destruct e; [apply keeps_emit|apply keeps_ret]|intros _].
  apply keeps_bind.
  - destruct input; [intros w; apply P_refl|apply keeps_raise].
  - intros found. apply keeps_dispatch_all. intros l. apply keeps_process_batch.
Qed.

End Orchestrator.

Lemma keeps_concurrency (arg : option string) : keeps P (concurrency arg).
Proof.
  unfold concurrency.
  destruct (match arg with Some s => pyint.int s | None => Some 10 end) as [n|].
  - destruct (0 <? n); [apply keeps_ret|apply keeps_raise].
  - apply keeps_bind; [apply keeps_emit|intros _; apply keeps_ret].
Qed.

Lemma keeps_main (cfg : Config) (args : Args) :
  (forall job, output job = arg_output args ->
               keeps P (process_pdf cfg recursion_limit job)) ->
  keeps P (main cfg args).
Proof.
  intros Hj. unfold main. apply keeps_bind; [apply keeps_concurrency|intros n].
  apply keeps_bind; [apply keeps_process; exact Hj|intros _; apply keeps_emit].
Qed.

End Preservation.

(** ** The pool under any schedule *)

(** [process_pdf] is its check followed, when no TEI file is found, by the
    rest. *)
Lemma process_pdf_phases (cfg : Config) (depth : nat) (job : Job) (w : World) :
  process_pdf cfg (S depth) job w =
    (r ← process_pdf_check job;
     match r with
     | None => mret tt
     | Some filename => process_pdf_act cfg depth job filename
     end) w.
Proof.
  cbn [process_pdf]. unfold process_pdf_check, process_pdf_act.
  unfold os_path_join. destruct (output job) as [d|]; [|reflexivity].
  unfold mbind, M_bind, mret, M_ret. cbn beta iota.
  destruct (isfile _ w); reflexivity.
Qed.

Lemma check_world (job : Job) (w : World) : snd (process_pdf_check job w) = w.
Proof.
  unfold process_pdf_check, os_path_join. destruct (output job); [|reflexivity].
  unfold mbind, M_bind, mret, M_ret. reflexivity.
Qed.

Lemma check_found_none (job : Job) (w w' : World) (f : string) :
  process_pdf_check job w = (Ok (Some f), w') -> w' = w /\ fs_files w !! f = None.
Proof.
  unfold process_pdf_check, os_path_join. destruct (output job); [|discriminate].
  unfold mbind, M_bind, mret, M_ret.
  destruct (isfile _ w) eqn:E; intros [= <- <-].
  split; [reflexivity|apply isfile_lookup, E].
Qed.

Lemma act_files (cfg : Config) (depth : nat) (job : Job) (f : string) (w : World) :
  let w' := snd (process_pdf_act cfg depth job f w) in
  fs_files w' = fs_files w \/ exists content, fs_files w' = <[f := content]> (fs_files w).
Proof.
  cbn zeta.
  assert (H : exists w', snd (process_pdf_act cfg depth job f w) = w'
                /\ (fs_files w' = fs_files w
                    \/ exists content, fs_files w' = <[f := content]> (fs_files w))).
  { unfold process_pdf_act. unfold mbind at 1, M_bind, emit at 1.
    unfold mbind at 1, M_bind, open_rb. rewrite isfile_set_trace.
    destruct (isfile (pdf_file job) w);
      [|eexists; split; [reflexivity|left; reflexivity]].
    unfold emit at 1. unfold mbind, M_bind, post.
    cbn [set_trace trace fs_files fs_dirs fs_wildcard fs_denied remote].
    destruct (remote w) as [|[text status|] rest];
      [eexists; split; [reflexivity|left; reflexivity]|
      |eexists; split; [reflexivity|left; reflexivity]].
    destruct (status =? 503).
    - unfold sleep. destruct (Qle_bool 0 (sleep_time cfg));
        [|eexists; split; [reflexivity|left; reflexivity]].
      unfold emit. rewrite retry_call_raises.
      eexists; split; [reflexivity|left; reflexivity].
    - destruct (status =? 200).
      + unfold write_text.
        cbn [set_remote set_trace trace fs_files fs_dirs fs_wildcard fs_denied remote].
        case_decide; [eexists; split; [reflexivity|left; reflexivity]|].
        destruct (utf8.encode text) as [bytes|];
          (eexists; split; [reflexivity|right; eexists; reflexivity]).
      + unfold emit, mret, M_ret.
        destruct (error_log job); (eexists; split; [reflexivity|left; reflexivity]). }
  destruct H as (w' & -> & H). exact H.
Qed.

Lemma pool_inv_step (cfg : Config) (w0 : World) (s s' : World * list task) :
  pool_inv w0 s -> pool_step cfg s s' -> pool_inv w0 s'.
Proof.
  unfold pool_inv. intros [Hk Hc] Hstep.
  destruct Hstep as [w w' ws i job r Hi Hrun|w w' ws i job f r Hi Hrun];
    cbn [fst snd] in *.
  - assert (Hw : w' = w) by (rewrite <- (check_world job w), Hrun; reflexivity).
    subst w'. split; [exact Hk|].
    intros j job' f Hj. cbn [snd] in Hj.
    destruct (decide (i = j)) as [<-|Hne].
    + rewrite list_lookup_insert_eq in Hj by (eapply lookup_lt_Some; eassumption).
      destruct r as [[f'|]|e]; try discriminate. injection Hj as <- <-.
      destruct (check_found_none job w w f' Hrun) as [_ Hnone].
      destruct (fs_files w0 !! f') as [c|] eqn:E; [|reflexivity].
      unfold files_kept in Hk. rewrite map_subseteq_spec in Hk.
      specialize (Hk f' c E). congruence.
    + rewrite list_lookup_insert_ne in Hj by exact Hne. eapply Hc, Hj.
  - split.
    + pose proof (act_files cfg (Nat.pred recursion_limit) job f w) as Hf.
      rewrite Hrun in Hf. cbn [snd] in Hf. unfold files_kept in *.
      destruct Hf as [->|[content ->]]; [exact Hk|].
      specialize (Hc i job f Hi).
      apply map_subseteq_spec. intros p c Hp.
      assert (Hne : f <> p) by congruence.
      rewrite lookup_insert_ne by exact Hne.
      rewrite map_subseteq_spec in Hk. apply Hk, Hp.
    + intros j job' f' Hj. cbn [snd] in Hj.
      destruct (decide (i = j)) as [<-|Hne].
      * rewrite list_lookup_insert_eq in Hj by (eapply lookup_lt_Some; eassumption).
        discriminate.
      * rewrite list_lookup_insert_ne in Hj by exact Hne. eapply Hc, Hj.
Qed.

(** The files of the world a pool starts from are kept, whatever the order
    in which its workers take their steps. *)
Lemma pool_keeps_files (cfg : Config) (w0 : World) (jobs : list Job)
    (s : World * list task) :
  rtc (pool_step cfg) (w0, Submitted <$> jobs) s -> files_kept w0 (fst s).
Proof.
  intros Hrun.
  assert (Hinv : pool_inv w0 s).
  { revert s Hrun. apply rtc_ind_r.
    - split; [unfold files_kept; reflexivity|].
      intros i job f Hi. cbn [snd] in Hi.
      rewrite list_lookup_fmap in Hi.
      destruct (jobs !! i); discriminate.
    - intros s1 s2 _ Hstep Hinv. eapply pool_inv_step; eassumption. }
  exact (proj1 Hinv).
Qed.

(** One call run from start to end is two steps of the pool, or one. *)
Lemma pool_runs_job (cfg : Config) (job : Job) (w : World)
    (pre post : list task) :
  rtc (pool_step cfg)
    (w, pre ++ Submitted job :: post)
    (snd (process_pdf cfg recursion_limit job w), pre ++ Done :: post).
Proof.
  change recursion_limit with (S (Nat.pred recursion_limit)).
  rewrite process_pdf_phases. unfold mbind, M_bind.
  destruct (process_pdf_check job w) as [r w1] eqn:Hcheck.
  assert (Hi : (pre ++ Submitted job :: post) !! length pre = Some (Submitted job))
    by (rewrite lookup_app_r, Nat.sub_diag by lia; reflexivity).
  pose proof (step_check cfg w w1 _ _ job r Hi Hcheck) as Hstep.
  rewrite insert_app_r_alt, Nat.sub_diag in Hstep by lia. cbn [insert list_insert] in Hstep.
  destruct r as [[f|]|e].
  - eapply rtc_l; [exact Hstep|].
    destruct (process_pdf_act cfg (Nat.pred recursion_limit) job f w1) as [r2 w2] eqn:Hact.
    assert (Hj : (pre ++ Checked job f :: post) !! length pre = Some (Checked job f))
      by (rewrite lookup_app_r, Nat.sub_diag by lia; reflexivity).
    pose proof (step_act cfg w1 w2 _ _ job f r2 Hj Hact) as Hstep2.
    rewrite insert_app_r_alt, Nat.sub_diag in Hstep2 by lia.
    cbn [insert list_insert] in Hstep2.
    apply rtc_once. exact Hstep2.
  - apply rtc_once. exact Hstep.
  - apply rtc_once. exact Hstep.
Qed.

(** The calls of a batch taken one after the other, as [process_batch] has
    them, are one run of the pool. *)
Lemma pool_runs_in_order (cfg : Config) (jobs : list Job) (w : World)
    (pre : list task) :
  rtc (pool_step cfg)
    (w, pre ++ (Submitted <$> jobs))
    (snd (for_each (fun job => submit (process_pdf cfg recursion_limit job)) jobs w),
     pre ++ replicate (length jobs) Done).
Proof.
  revert w pre. induction jobs as [|job jobs IH]; intros w pre.
  - cbn. apply rtc_refl.
  - cbn [fmap list_fmap for_each length replicate].
    unfold mbind, M_bind, submit at 1. cbn beta iota.
    eapply rtc_trans; [apply pool_runs_job|].
    specialize (IH (snd (process_pdf cfg recursion_limit job w)) (pre ++ [Done])).
    rewrite <- !app_assoc in IH. exact IH.
Qed.

Lemma batches_run_keeps_files (cfg : Config) (job : string -> Job)
    (bs : list (list string)) (w w' : World) :
  batches_run cfg job bs w w' -> files_kept w w'.
Proof.
  induction 1 as [w|b bs w w1 w2 ts Hpool _ _ IH].
  - unfold files_kept. reflexivity.
  - pose proof (pool_keeps_files cfg _ _ _ Hpool) as Hk. cbn [fst] in Hk.
    unfold files_kept in *. cbn [set_trace fs_files] in Hk.
    etransitivity; eassumption.
Qed.

Lemma submitted_calls (cfg : Config) (b : list string) (out : option string)
    (service : string) (g h c e : bool) (w : World) :
  for_each (fun pdf_file =>
      submit (call_process_pdf (process_pdf cfg recursion_limit)
                [PStr pdf_file; val_of_output out; PStr service;
                 PBool g; PBool h; PBool c; PBool e])) b w
  = (Ok tt,
     snd (for_each (fun job => submit (process_pdf cfg recursion_limit job))
            (job_of out service g h c e <$> b) w)).
Proof.
  revert w. induction b as [|f b IH]; intros w; [reflexivity|].
  cbn [for_each fmap list_fmap]. unfold mbind, M_bind, submit at 1 3. cbn beta iota.
  rewrite IH. f_equal. f_equal. f_equal.
  unfold job_of. destruct out; reflexivity.
Qed.

Lemma process_batch_in_order (cfg : Config) (b : list string) (out : option string)
    (n : Z) (service : string) (g h c e : bool) (w : World) :
  0 < n ->
  process_batch cfg b out n service g h c e w
  = (Ok tt,
     snd (for_each (fun job => submit (process_pdf cfg recursion_limit job))
            (job_of out service g h c e <$> b)
            (set_trace (trace w ++ [batch_notice b]) w))).
Proof.
  intros Hn. unfold process_batch.
  erewrite bind_ok by reflexivity.
  destruct (n <=? 0) eqn:E; [apply Z.leb_le in E; lia|].
  apply submitted_calls.
Qed.

Lemma for_each_batches_run (cfg : Config) (out : option string) (n : Z)
    (service : string) (g h c e : bool) (bs : list (list string)) (w : World) :
  0 < n ->
  batches_run cfg (job_of out service g h c e) bs w
    (snd (for_each (fun b => process_batch cfg b out n service g h c e) bs w)).
Proof.
  intros Hn. revert w. induction bs as [|b bs IH]; intros w; cbn [for_each].
  - apply batches_run_nil.
  - unfold mbind, M_bind. rewrite process_batch_in_order by exact Hn.
    eapply batches_run_cons; [apply (pool_runs_in_order cfg _ _ [])| |apply IH].
    cbn [app]. apply Forall_forall. intros t Ht.
    apply elem_of_replicate in Ht. apply Ht.
Qed.

(** The run of [process] is one of its runs. *)
Lemma process_is_a_run (cfg : Config) (d : string) (out : option string) (n : Z)
    (service : string) (g h c e : bool) (w : World) :
  0 < n ->
  process_runs cfg d out service g h c e w
    (snd (process cfg (Some d) out n service g h c e w)).
Proof.
  intros Hn. unfold process_runs, process.
  erewrite bind_ok by reflexivity.
  assert (Hpre : forall k : unit -> M unit,
             ((if e then emit (LogSetup "errors.log") else mret tt) ≫= k)
               (set_trace (trace w ++ [Print (str_bool e)]) w)
             = k tt (set_trace (trace w ++ process_prelude e) w)).
  { intros k. unfold process_prelude.
    destruct e; erewrite bind_ok by reflexivity; f_equal; world_eq. }
  rewrite Hpre. unfold glob_input. erewrite bind_ok by reflexivity.
  rewrite dispatch_all_batches.
  change (glob.glob (d +:+ "/*.pdf") (set_trace (trace w ++ process_prelude e) w))
    with (glob.glob (d +:+ "/*.pdf") w).
  apply for_each_batches_run, Hn.
Qed.

(** A run of [process] keeps the files it finds, whatever the order in
    which the calls of each batch take their steps. *)
Lemma process_runs_keep_files (cfg : Config) (d : string) (out : option string)
    (service : string) (g h c e : bool) (w w' : World) :
  process_runs cfg d out service g h c e w w' -> files_kept w w'.
Proof.
  intros Hrun. apply batches_run_keeps_files in Hrun. exact Hrun.
Qed.

(** The files of before are still there, with their content. *)
Lemma files_kept_by_process_pdf (cfg : Config) (depth : nat) (job : Job) :
  keeps files_kept (process_pdf cfg depth job).
Proof.
  intros w. unfold files_kept.
  destruct (process_pdf_files cfg depth job w) as [->|(d & content & _ & Hf & ->)].
  - reflexivity.
  - apply insert_subseteq, isfile_lookup, Hf.
Qed.



(** ** Runs that end without an exception *)

Lemma returns_ret {A} (a : A) : returns (mret a).
Proof. intros w. exists a, w. reflexivity. Qed.

Lemma returns_emit (e : event) : returns (emit e).
Proof. intros w. do 2 eexists. reflexivity. Qed.

Lemma returns_bind {A B} (m : M A) (f : A -> M B) :
  returns m -> (forall a, returns (f a)) -> returns (m ≫= f).
Proof.
  intros Hm Hf w. destruct (Hm w) as (a & w1 & H1).
  rewrite (bind_ok m f a w w1 H1). apply Hf.
Qed.

(** What a submitted call raises does not reach the caller. *)
Lemma returns_submit (call : M unit) : returns (submit call).
Proof. intros w. do 2 eexists. reflexivity. Qed.

Lemma returns_for_each {A} (body : A -> M unit) (l : list A) :
  (forall x, returns (body x)) -> returns (for_each body l).
Proof.
  intros Hb. induction l as [|x l IH]; cbn [for_each].
  - apply returns_ret.
  - apply returns_bind; [apply Hb|intros _; exact IH].
Qed.

Lemma returns_process_loop (dispatch : list string -> M unit) (B : Z)
    (found pdf_files : list string) :
  (forall l, returns (dispatch l)) -> returns (process_loop dispatch B found pdf_files).
Proof.
  intros Hd. revert pdf_files.
  induction found as [|f found IH]; intros pdf_files; cbn [process_loop].
  - apply returns_ret.
  - destruct (Z.of_nat (length (pdf_files ++ [f])) =? B).
    + apply returns_bind; [apply Hd|intros _; apply IH].
    + apply IH.
Qed.

Lemma returns_process_batch (cfg : Config) (pdf_files : list string)
    (out : option string) (n : Z) (service : string) (g h c e : bool) :
  0 < n -> returns (process_batch cfg pdf_files out n service g h c e).
Proof.
  intros Hn. unfold process_batch.
  apply returns_bind; [apply returns_emit|intros _].
  destruct (n <=? 0) eqn:E; [apply Z.leb_le in E; lia|].
  apply returns_for_each. intros f. apply returns_submit.
Qed.

(** With a directory to search and at least one worker, [process] returns:
    no failure of a job ends the run. *)
Lemma returns_process (cfg : Config) (d : string) (out : option string) (n : Z)
    (service : string) (g h c e : bool) :
  0 < n -> returns (process cfg (Some d) out n service g h c e).
Proof.
  intros Hn. unfold process.
  apply returns_bind; [apply returns_emit|intros _].
  apply returns_bind; [destruct e; [apply returns_emit|apply returns_ret]|intros _].
  apply returns_bind; [intros w; do 2 eexists; reflexivity|intros found].
  unfold dispatch_all. apply returns_bind.
  - apply returns_process_loop. intros l. apply returns_process_batch, Hn.
  - intros l. destruct (0 <? length l)%nat;
      [apply returns_process_batch, Hn|apply returns_ret].
Qed.

Lemma returns_not_raises {A} (m : M A) (w : World) : returns m -> ~ raises m w.
Proof.
  intros Hm (e & w' & H). destruct (Hm w) as (a & w1 & H1). congruence.
Qed.

(** ** Discovery *)

(** A directory that cannot be listed contributes no file. *)
Lemma glob_unlisted (pathname : string) (w : World) :
  Forall (fun dir => fs_dirs w !! dir = None)
         (glob.dirs_of pathname (fst (posixpath.split pathname)) w) ->
  glob.glob pathname w = [].
Proof.
  unfold glob.glob. destruct (posixpath.split pathname) as [dirname basename].
  cbn [fst]. generalize (glob.dirs_of pathname dirname w). intros dirs Hdirs.
  induction Hdirs as [|dir dirs Hdir _ IH]; [reflexivity|].
  rewrite bind_cons, IH.
  unfold glob.glob1. rewrite Hdir. reflexivity.
Qed.

(** When discovery finds nothing, [process] ends after its first lines. *)
Lemma process_nothing_found (cfg : Config) (d : string) (out : option string)
    (n : Z) (service : string) (g h c e : bool) (w : World) :
  glob.glob (d +:+ "/*.pdf") w = [] ->
  process cfg (Some d) out n service g h c e w
  = (Ok tt, set_trace (trace w ++ process_prelude e) w).
Proof.
  intros Hg. unfold process, process_prelude.
  erewrite bind_ok by reflexivity.
  destruct e.
  - erewrite bind_ok by reflexivity.
    erewrite bind_ok by reflexivity.
    change (glob.glob (d +:+ "/*.pdf") _) with (glob.glob (d +:+ "/*.pdf") w).
    rewrite Hg. cbn. f_equal. world_eq.
  - erewrite bind_ok by reflexivity.
    erewrite bind_ok by reflexivity.
    change (glob.glob (d +:+ "/*.pdf") _) with (glob.glob (d +:+ "/*.pdf") w).
    rewrite Hg. cbn. f_equal.
Qed.

(** C3, as the code has it. For an input directory that is missing or
    cannot be read, so that no directory the pattern names can be listed,
    discovery raises nothing: it finds no file, no batch is dispatched and
    [process] returns, having printed its first line (and set up the log). *)
Theorem missing_directory_yields_no_file (cfg : Config) (d : string)
    (out : option string) (n : Z) (service : string) (g h c e : bool) (w : World) :
  Forall (fun dir => fs_dirs w !! dir = None) (listed_dirs d w) ->
  glob.glob (d +:+ "/*.pdf") w = []
  /\ process cfg (Some d) out n service g h c e w
     = (Ok tt, set_trace (trace w ++ process_prelude e) w).
Proof.
  intros Hd.
  assert (Hg : glob.glob (d +:+ "/*.pdf") w = []) by (apply glob_unlisted, Hd).
  split; [exact Hg|apply process_nothing_found, Hg].
Qed.

Lemma missing_directory_yields_no_file_witness :
  glob.glob "nowhere/*.pdf" (Sample.world []) = []
  /\ process Sample.config (Some "nowhere") (Some "out") 10 "processFulltextDocument"
       false false false true (Sample.world [])
     = (Ok tt, set_trace [Print "True"; LogSetup "errors.log"] (Sample.world [])).
Proof.
  apply (missing_directory_yields_no_file Sample.config "nowhere" (Some "out") 10
           "processFulltextDocument" false false false true (Sample.world [])).
  repeat constructor.
Defined.

(** C3, as the claim has it, fails: the directory [nowhere] is not there,
    and [process] ends without an exception. *)
Lemma missing_directory_is_no_error :
  fs_dirs (Sample.world []) !! "nowhere" = None
  /\ ~ raises (process Sample.config (Some "nowhere") (Some "out") 10
                 "processFulltextDocument" false false false false)
              (Sample.world []).
Proof.
  split; [reflexivity|].
  intros (e & w' & H).
  rewrite process_nothing_found in H by reflexivity. discriminate H.
Qed.

(** ** Directories left out on the command line *)

(** The files and the replies still to come are those of before. *)
Lemma untouched_refl (w : World) : untouched w w.
Proof. split; reflexivity. Qed.

Lemma untouched_trans (w1 w2 w3 : World) :
  untouched w1 w2 -> untouched w2 w3 -> untouched w1 w3.
Proof. intros [H1 H2] [H3 H4]. split; congruence. Qed.

Lemma untouched_trace (w : World) (t : list event) : untouched w (set_trace t w).
Proof. split; reflexivity. Qed.

(** Without an input directory [process] ends at line 44. *)
Lemma process_no_input (cfg : Config) (out : option string) (n : Z)
    (service : string) (g h c e : bool) (w : World) :
  process cfg None out n service g h c e w
  = (Raise TypeError, set_trace (trace w ++ process_prelude e) w).
Proof.
  unfold process, process_prelude.
  erewrite bind_ok by reflexivity.
  destruct e; erewrite bind_ok by reflexivity; cbn; f_equal; world_eq.
Qed.




(** ** The concurrency option *)

(** A value of [--n] that reads as an integer below one stops the run. *)
Lemma concurrency_not_positive (s : string) (v : Z) (w : World) :
  pyint.int s = Some v -> v <= 0 ->
  concurrency (Some s) w = (Raise AssertionError, w).
Proof.
  intros Hs Hv. unfold concurrency. rewrite Hs.
  destruct (0 <? v) eqn:E; [apply Z.ltb_lt in E; lia|reflexivity].
Qed.




(** * Further properties *)

(** ** Strings and paths *)

Lemma append_cons (c : ascii) (s t : string) : String c s +:+ t = String c (s +:+ t).
Proof. reflexivity. Qed.

Lemma append_nil_r (s : string) : s +:+ "" = s.
Proof.
  induction s as [|c s IH]; [reflexivity|]. rewrite append_cons, IH. reflexivity.
Qed.

Lemma append_assoc (s t u : string) : (s +:+ t) +:+ u = s +:+ (t +:+ u).
Proof.
  induction s as [|c s IH]; [reflexivity|]. rewrite !append_cons, IH. reflexivity.
Qed.

Lemma any_app (P : ascii -> bool) (s t : string) :
  Str.any P (s +:+ t) = Str.any P s || Str.any P t.
Proof.
  induction s as [|c s IH]; [reflexivity|].
  rewrite append_cons. cbn [Str.any]. rewrite IH, orb_assoc. reflexivity.
Qed.

Lemma rev_app_append (s t : string) : String.rev_app s t = String.rev s +:+ t.
Proof.
  unfold String.rev. revert t.
  induction s as [|c s IH]; intros t; cbn [String.rev_app]; [reflexivity|].
  rewrite IH, (IH (String c "")), append_assoc. reflexivity.
Qed.

Lemma rev_append (s t : string) : String.rev (s +:+ t) = String.rev t +:+ String.rev s.
Proof.
  induction s as [|c s IH].
  - change ("" +:+ t) with t. rewrite append_nil_r. reflexivity.
  - rewrite append_cons. unfold String.rev at 1 3. cbn [String.rev_app].
    rewrite !rev_app_append, IH, append_assoc. reflexivity.
Qed.

Lemma any_rev (P : ascii -> bool) (s : string) : Str.any P (String.rev s) = Str.any P s.
Proof.
  induction s as [|c s IH]; [reflexivity|].
  unfold String.rev. cbn [String.rev_app]. rewrite rev_app_append, any_app, IH.
  cbn. rewrite orb_false_r, orb_comm. reflexivity.
Qed.

Lemma prefix_append (p s : string) : String.prefix p (p +:+ s) = true.
Proof.
  induction p as [|c p IH]; [destruct s; reflexivity|].
  rewrite append_cons. cbn [String.prefix].
  destruct (ascii_dec c c); [exact IH|congruence].
Qed.

Lemma endswith_append (s t : string) : Str.endswith t (s +:+ t) = true.
Proof. unfold Str.endswith. rewrite rev_append. apply prefix_append. Qed.

Lemma split_after_last_append (P : ascii -> bool) (s : string) :
  fst (Str.split_after_last P s) +:+ snd (Str.split_after_last P s) = s.
Proof.
  induction s as [|c s IH]; [reflexivity|]. cbn [Str.split_after_last].
  destruct (Str.split_after_last P s) as [h t]. cbn [fst snd] in IH.
  destruct (P c); [cbn [fst snd]; rewrite append_cons, IH; reflexivity|].
  destruct h; cbn [fst snd] in *.
  - exact (f_equal (String c) IH).
  - rewrite append_cons, IH. reflexivity.
Qed.

Lemma split_after_last_tail (P : ascii -> bool) (s : string) :
  Str.any P (snd (Str.split_after_last P s)) = false.
Proof.
  induction s as [|c s IH]; [reflexivity|]. cbn [Str.split_after_last].
  destruct (Str.split_after_last P s) as [h t]. cbn [fst snd] in IH.
  destruct (P c) eqn:E; [exact IH|].
  destruct h; cbn; [rewrite E, IH; reflexivity|exact IH].
Qed.

Lemma any_append_false (P : ascii -> bool) (s t : string) :
  Str.any P (s +:+ t) = false -> Str.any P s = false /\ Str.any P t = false.
Proof. rewrite any_app. apply orb_false_iff. Qed.

Lemma splitext_root_any (P : ascii -> bool) (p : string) :
  Str.any P p = false -> Str.any P (posixpath.splitext_root p) = false.
Proof.
  intros Hp. unfold posixpath.splitext_root.
  pose proof (split_after_last_append is_slash p) as Hdir.
  destruct (Str.split_after_last is_slash p) as [dir name]. cbn [fst snd] in Hdir.
  pose proof (split_after_last_append is_dot name) as Hdot.
  destruct (Str.split_after_last is_dot name) as [upto_dot ext]. cbn [fst snd] in Hdot.
  pose proof Hp as Hparts. rewrite <- Hdir in Hparts.
  apply any_append_false in Hparts as [Hd Hn].
  rewrite <- Hdot in Hn. apply any_append_false in Hn as [Hu _].
  rewrite <- any_rev in Hu.
  destruct (String.rev upto_dot) as [|c before_rev]; [exact Hp|].
  destruct (Str.all is_dot before_rev); [exact Hp|].
  cbn [Str.any] in Hu. apply orb_false_iff in Hu as [_ Hb].
  rewrite any_app, any_rev, Hd, Hb. reflexivity.
Qed.

Lemma basename_no_separator (p : string) :
  Str.any is_bothseps (ntpath.basename p) = false.
Proof. unfold ntpath.basename. apply split_after_last_tail. Qed.

Lemma tei_name_no_separator (pdf_file : string) :
  Str.any is_bothseps (tei_name pdf_file) = false.
Proof.
  unfold tei_name. rewrite any_app.
  rewrite splitext_root_any by apply basename_no_separator. reflexivity.
Qed.

Lemma startswith_slash (s : string) :
  Str.any is_bothseps s = false -> Str.startswith "/" s = false.
Proof.
  destruct s as [|c s]; [reflexivity|]. cbn [Str.any]. intros H.
  apply orb_false_iff in H as [Hc _].
  unfold Str.startswith. cbn [String.prefix].
  destruct (ascii_dec "/" c) as [<-|]; [discriminate Hc|reflexivity].
Qed.

Lemma join_tei_name (d pdf_file : string) :
  posixpath.join d (tei_name pdf_file)
  = if Str.is_empty d || Str.endswith "/" d
    then d +:+ tei_name pdf_file
    else d +:+ "/" +:+ tei_name pdf_file.
Proof.
  unfold posixpath.join.
  rewrite startswith_slash by apply tei_name_no_separator. reflexivity.
Qed.

Lemma join_tei_name_suffix (d pdf_file : string) :
  Str.endswith ".tei.xml" (posixpath.join d (tei_name pdf_file)) = true.
Proof.
  rewrite join_tei_name. unfold tei_name.
  destruct (Str.is_empty d || Str.endswith "/" d);
    rewrite <- ?append_assoc; apply endswith_append.
Qed.

(** ** Where a TEI file goes *)

(** X1. The name of a TEI file has no slash and no backslash and ends in
    [.tei.xml], whatever the path of the PDF file; so the output path of a
    job is its output directory, a slash where the directory does not end
    in one, and that name: the file lies in the output directory itself. *)
Theorem output_file_lies_in_output_directory (d : string) (job : Job) :
  Str.any is_bothseps (tei_name (pdf_file job)) = false
  /\ Str.endswith ".tei.xml" (tei_name (pdf_file job)) = true
  /\ output_path d job
     = (if Str.is_empty d || Str.endswith "/" d
        then d +:+ tei_name (pdf_file job)
        else d +:+ "/" +:+ tei_name (pdf_file job)).
Proof.
  split; [apply tei_name_no_separator|].
  split; [unfold tei_name; apply endswith_append|].
  unfold output_path. apply join_tei_name.
Qed.

Lemma pdf_is_not_tei (p : string) :
  Str.endswith ".pdf" p = true -> Str.endswith ".tei.xml" p = false.
Proof.
  unfold Str.endswith.
  change (String.rev ".pdf") with "fdp.". change (String.rev ".tei.xml") with "lmx.iet.".
  destruct (String.rev p) as [|c r]; [discriminate|]. cbn [String.prefix].
  destruct (ascii_dec "f" c) as [<-|]; [|discriminate]. intros _.
  destruct (ascii_dec "l" "f"); [discriminate|reflexivity].
Qed.

Lemma other_files_kept_by_process_pdf (cfg : Config) (depth : nat) (job : Job) :
  keeps other_files_kept (process_pdf cfg depth job).
Proof.
  intros w p Hp.
  destruct (process_pdf_files cfg depth job w) as [->|(d & content & _ & _ & ->)];
    [reflexivity|].
  apply lookup_insert_ne. intros <-.
  unfold output_path in Hp. rewrite join_tei_name_suffix in Hp. discriminate Hp.
Qed.



(** ** Batches, whatever the batch size *)

Lemma batches_loop_concat (B : Z) (found pdf_files : list string) :
  concat (fst (batches_loop B found pdf_files)) ++ snd (batches_loop B found pdf_files)
  = pdf_files ++ found.
Proof.
  revert pdf_files. induction found as [|f found IH]; intros acc; cbn [batches_loop].
  - cbn. rewrite app_nil_r. reflexivity.
  - destruct (Z.of_nat (length (acc ++ [f])) =? B).
    + specialize (IH []). destruct (batches_loop B found []) as [bs rest].
      cbn [fst snd concat] in *. rewrite <- !app_assoc, IH. reflexivity.
    + rewrite IH, <- app_assoc. reflexivity.
Qed.

Lemma batches_loop_nonempty (B : Z) (found pdf_files : list string) :
  Forall (fun b => b <> []) (fst (batches_loop B found pdf_files)).
Proof.
  revert pdf_files. induction found as [|f found IH]; intros acc; cbn [batches_loop].
  - constructor.
  - destruct (Z.of_nat (length (acc ++ [f])) =? B).
    + specialize (IH []). destruct (batches_loop B found []) as [bs rest].
      cbn [fst] in *. constructor; [|exact IH].
      intros H. apply app_eq_nil in H as [_ H]. discriminate H.
    + apply IH.
Qed.

Lemma batches_concat (B : Z) (found : list string) :
  concat (batches B found) = found.
Proof.
  unfold batches.
  pose proof (batches_loop_concat B found []) as Hc.
  destruct (batches_loop B found []) as [bs rest]. cbn [fst snd app] in *.
  destruct (0 <? length rest)%nat eqn:E.
  - rewrite concat_app. cbn [concat]. rewrite app_nil_r. exact Hc.
  - apply Nat.ltb_ge in E. destruct rest; [|cbn [length] in E; lia].
    rewrite app_nil_r in Hc. exact Hc.
Qed.

(** X3. Whatever the batch size, zero and negative sizes included, the
    batches that [process] dispatches are, put end to end, the files found,
    in the order of discovery: no file is left out and none is dispatched
    twice; and no batch is empty. *)
Theorem every_file_is_dispatched_once (B : Z) (found : list string) :
  (forall (dispatch : list string -> M unit) (w : World),
     dispatch_all dispatch B found w = for_each dispatch (batches B found) w)
  /\ concat (batches B found) = found
  /\ Forall (fun b => b <> []) (batches B found).
Proof.
  split; [intros dispatch w; apply dispatch_all_batches|].
  unfold batches.
  pose proof (batches_loop_concat B found []) as Hc.
  pose proof (batches_loop_nonempty B found []) as Hn.
  destruct (batches_loop B found []) as [bs rest]. cbn [fst snd app] in *.
  destruct (0 <? length rest)%nat eqn:E.
  - split.
    + rewrite concat_app. cbn [concat]. rewrite app_nil_r. exact Hc.
    + apply Forall_app. split; [exact Hn|].
      constructor; [|constructor]. intros ->. discriminate E.
  - apply Nat.ltb_ge in E. destruct rest; [|cbn [length] in E; lia].
    rewrite app_nil_r in Hc. split; [exact Hc|exact Hn].
Qed.

Lemma batches_loop_never_full (B : Z) (found pdf_files : list string) :
  B <= 0 -> batches_loop B found pdf_files = ([], pdf_files ++ found).
Proof.
  intros HB. revert pdf_files.
  induction found as [|f found IH]; intros acc; cbn [batches_loop].
  - rewrite app_nil_r. reflexivity.
  - destruct (Z.of_nat (length (acc ++ [f])) =? B) eqn:E.
    + apply Z.eqb_eq in E. rewrite length_app in E. cbn [length] in E. lia.
    + rewrite IH, <- app_assoc. reflexivity.
Qed.

(** X4. With a batch size of zero or less the list filled by the loop never
    has that length: nothing is dispatched in the loop and all the files
    found go to the pool as one batch, the last. *)
Theorem nonpositive_batch_size_gives_one_batch (B : Z) (found : list string) :
  B <= 0 -> found <> [] ->
  batches B found = [found]
  /\ forall (dispatch : list string -> M unit) (w : World),
       dispatch_all dispatch B found w = dispatch found w.
Proof.
  intros HB Hf.
  assert (Hb : batches B found = [found]).
  { unfold batches. rewrite batches_loop_never_full by exact HB.
    cbn [app]. destruct found as [|f found]; [congruence|reflexivity]. }
  split; [exact Hb|].
  intros dispatch w. rewrite dispatch_all_batches, Hb. cbn [for_each].
  unfold mbind, M_bind, mret, M_ret.
  destruct (dispatch found w) as [[[]|e] w1]; reflexivity.
Qed.

Lemma nonpositive_batch_size_gives_one_batch_witness :
  batches 0 ["in/a.pdf"; "in/b.pdf"; "in/c.pdf"] = [["in/a.pdf"; "in/b.pdf"; "in/c.pdf"]]
  /\ forall (dispatch : list string -> M unit) (w : World),
       dispatch_all dispatch 0 ["in/a.pdf"; "in/b.pdf"; "in/c.pdf"] w
       = dispatch ["in/a.pdf"; "in/b.pdf"; "in/c.pdf"] w.
Proof.
  apply (nonpositive_batch_size_gives_one_batch 0 ["in/a.pdf"; "in/b.pdf"; "in/c.pdf"]).
  - lia.
  - discriminate.
Defined.

(** ** Requests *)

Lemma requests_app (w : World) (t : list event) :
  requests (set_trace (trace w ++ t) w)
  = requests w ++ omap (fun e => match e with Post r => Some r | _ => None end) t.
Proof. unfold requests. cbn [trace set_trace]. apply omap_app. Qed.

(** X5. One call of [process_pdf] sends no request or one, the request of
    its job (the URL of the service, the PDF file as the part [input], the
    data fields of the flags, the header [Accept: text/plain]); it takes at
    most one reply of the service: a status 503 is not followed by a
    second request. *)
Theorem at_most_one_request (cfg : Config) (depth : nat) (job : Job) (w : World) :
  let w' := snd (process_pdf cfg depth job w) in
  (requests w' = requests w /\ remote w' = remote w)
  \/ (requests w' = requests w ++ [request_of cfg job]
      /\ remote w' = tail (remote w)).
Proof.
  cbn zeta.
  destruct depth as [|depth]; [left; split; reflexivity|].
  destruct (output job) as [d|] eqn:Ho;
    [|left; rewrite process_pdf_no_output by exact Ho; split; reflexivity].
  destruct (isfile (output_path d job) w) eqn:Hf;
    [left; rewrite (process_pdf_skips cfg depth job d w Ho Hf); split; reflexivity|].
  destruct (isfile (pdf_file job) w) eqn:Hs;
    [|left; rewrite (process_pdf_unreadable cfg depth job d w Ho Hf Hs);
      split; [requests_simpl|]; reflexivity].
  right. rewrite (process_pdf_request cfg depth job d w Ho Hf Hs).
  unfold mbind, M_bind, post.
  cbn [set_trace trace fs_files fs_dirs fs_wildcard fs_denied remote].
  destruct (remote w) as [|[text status|] rest] eqn:Hr.
  - split; [requests_simpl; reflexivity|].
    cbn [snd remote set_trace]. rewrite Hr. reflexivity.
  - cbn [tail]. destruct (status =? 503).
    + unfold sleep. destruct (Qle_bool 0 (sleep_time cfg)).
      * unfold emit. rewrite retry_call_raises. split; [requests_simpl|]; reflexivity.
      * split; [requests_simpl|]; reflexivity.
    + destruct (status =? 200).
      * unfold write_text.
        cbn [set_remote set_trace trace fs_files fs_dirs fs_wildcard fs_denied remote].
        case_decide; [split; [requests_simpl|]; reflexivity|].
        destruct (utf8.encode text); (split; [requests_simpl|]; reflexivity).
      * unfold emit, mret, M_ret.
        destruct (error_log job); (split; [requests_simpl|]; reflexivity).
  - cbn [tail]. split; [requests_simpl|]; reflexivity.
Qed.

(** ** Calls that fail *)

(** X6. An entry that discovery found but that cannot be opened for reading
    (a directory whose name ends in [.pdf], a file removed since) ends the
    call with [OSError] once its path is printed: nothing is sent to the
    service, no reply is taken and no file is written. *)
Theorem unreadable_source_is_not_sent (cfg : Config) (depth : nat) (job : Job)
    (d : string) (w : World) :
  output job = Some d ->
  isfile (output_path d job) w = false ->
  isfile (pdf_file job) w = false ->
  exists w',
    process_pdf cfg (S depth) job w = (Raise OSError, w')
    /\ trace w' = trace w ++ [Print (pdf_file job)]
    /\ requests w' = requests w
    /\ untouched w w'.
Proof.
  intros Ho Hf Hs. eexists. split.
  - cbn [process_pdf]. monad_unfold. rewrite Ho.
    unfold output_path, tei_name in Hf. rewrite Hf.
    unfold emit at 1. cbn beta iota.
    unfold open_rb. rewrite isfile_set_trace, Hs. reflexivity.
  - split; [reflexivity|]. split; [requests_simpl; reflexivity|split; reflexivity].
Qed.

Lemma unreadable_source_is_not_sent_witness :
  exists w',
    process_pdf Sample.config recursion_limit
      (mkJob "in/sub.pdf" (Some "out") "processFulltextDocument" false false false false)
      (Sample.world [Response [60] 200])
    = (Raise OSError, w')
    /\ trace w' = [] ++ [Print "in/sub.pdf"]
    /\ requests w' = []
    /\ untouched (Sample.world [Response [60] 200]) w'.
Proof.
  apply (unreadable_source_is_not_sent Sample.config 999
           (mkJob "in/sub.pdf" (Some "out") "processFulltextDocument"
              false false false false) "out" (Sample.world [Response [60] 200]));
    reflexivity.
Defined.

(** X7. A response with status 200 whose output path cannot be opened for
    writing (the output directory is not there: the client does not create
    it) ends the call with [OSError]: the response is taken and dropped, and
    the files are those of before. *)
Theorem unwritable_output_drops_the_response (cfg : Config) (depth : nat)
    (job : Job) (d : string) (w : World) (text : list Z) (rest : list reply) :
  output job = Some d ->
  isfile (output_path d job) w = false ->
  isfile (pdf_file job) w = true ->
  remote w = Response text 200 :: rest ->
  output_path d job ∈ fs_denied w ->
  process_pdf cfg (S depth) job w
  = (Raise OSError,
     set_remote rest
       (set_trace (trace w ++ [Print (pdf_file job); OpenRead (pdf_file job);
                               Post (request_of cfg job)]) w)).
Proof.
  intros Ho Hf Hs Hr Hd.
  rewrite (process_pdf_request cfg depth job d w Ho Hf Hs).
  unfold mbind, M_bind, post.
  cbn [set_trace trace fs_files fs_dirs fs_wildcard fs_denied remote].
  rewrite Hr. cbn [Z.eqb Pos.eqb]. unfold write_text.
  cbn [set_remote set_trace trace fs_files fs_dirs fs_wildcard fs_denied remote].
  rewrite decide_True by exact Hd. f_equal. world_eq.
Qed.

Lemma unwritable_output_drops_the_response_witness :
  process_pdf Sample.config recursion_limit (Sample.job false)
    (SampleMore.world_no_out [Response [60] 200; Response [61] 200])
  = (Raise OSError,
     set_remote [Response [61] 200]
       (set_trace [Print "in/a.pdf"; OpenRead "in/a.pdf";
                   Post (request_of Sample.config (Sample.job false))]
          (SampleMore.world_no_out [Response [60] 200; Response [61] 200]))).
Proof.
  apply (unwritable_output_drops_the_response Sample.config 999 (Sample.job false)
           "out" (SampleMore.world_no_out [Response [60] 200; Response [61] 200])
           [60] [Response [61] 200]); reflexivity.
Defined.



(** ** Runs that go on *)



Lemma concurrency_returns (arg : option string) (w : World) :
  (forall s v, arg = Some s -> pyint.int s = Some v -> 0 < v) ->
  exists n w', concurrency arg w = (Ok n, w') /\ 0 < n.
Proof.
  intros Hv. unfold concurrency. destruct arg as [s|].
  - destruct (pyint.int s) as [v|] eqn:Es.
    + specialize (Hv s v eq_refl Es).
      destruct (0 <? v) eqn:E; [|apply Z.ltb_ge in E; lia].
      exists v, w. split; [reflexivity|exact Hv].
    + do 2 eexists. split; [reflexivity|lia].
  - exists 10, w. split; [reflexivity|lia].
Qed.



(** ** Discovery, entry by entry *)

Lemma split_after_last_pattern (d : string) :
  Str.split_after_last is_slash (d +:+ "/*.pdf") = (d +:+ "/", "*.pdf").
Proof.
  induction d as [|c d IH]; [reflexivity|].
  rewrite !append_cons. cbn [Str.split_after_last]. rewrite IH.
  destruct (is_slash c); [reflexivity|].
  destruct d; reflexivity.
Qed.

Lemma split_pattern (d : string) :
  snd (posixpath.split (d +:+ "/*.pdf")) = "*.pdf".
Proof. unfold posixpath.split. rewrite split_after_last_pattern. reflexivity. Qed.

Lemma list_ascii_append (s t : string) :
  list_ascii_of_string (s +:+ t) = list_ascii_of_string s ++ list_ascii_of_string t.
Proof.
  induction s as [|c s IH]; [reflexivity|].
  rewrite append_cons. cbn [list_ascii_of_string app]. rewrite IH. reflexivity.
Qed.

Lemma string_of_list_ascii_app (l k : list ascii) :
  string_of_list_ascii (l ++ k) = string_of_list_ascii l +:+ string_of_list_ascii k.
Proof. induction l as [|c l IH]; [reflexivity|]. cbn. rewrite IH. reflexivity. Qed.

Lemma fnmatch_star (pat name : list ascii) :
  glob.fnmatch_chars ("*"%char :: pat) name
  = glob.fnmatch_chars pat name
    || match name with
       | [] => false
       | _ :: name' => glob.fnmatch_chars ("*"%char :: pat) name'
       end.
Proof. destruct name; reflexivity. Qed.

Lemma fnmatch_star_suffix (pat name : list ascii) :
  glob.fnmatch_chars ("*"%char :: pat) name = true
  <-> exists stem rest, name = stem ++ rest /\ glob.fnmatch_chars pat rest = true.
Proof.
  induction name as [|c name IH]; rewrite fnmatch_star.
  - rewrite orb_false_r. split.
    + intros H. exists [], []. split; [reflexivity|exact H].
    + intros (stem & rest & H & Hm).
      symmetry in H. apply app_eq_nil in H as [_ ->]. exact Hm.
  - split.
    + intros H. apply orb_true_iff in H as [H|H].
      * exists [], (c :: name). split; [reflexivity|exact H].
      * apply IH in H as (stem & rest & -> & Hm).
        exists (c :: stem), rest. split; [reflexivity|exact Hm].
    + intros (stem & rest & H & Hm). apply orb_true_iff.
      destruct stem as [|c' stem]; cbn [app] in H.
      * left. rewrite H. exact Hm.
      * right. injection H as -> ->. apply IH. eauto.
Qed.

Lemma fnmatch_literal (pat name : list ascii) :
  forallb (fun p => negb (Ascii.eqb p "*") && negb (Ascii.eqb p "?")) pat = true ->
  glob.fnmatch_chars pat name = true <-> name = pat.
Proof.
  revert name. induction pat as [|p pat IH]; intros name Hlit.
  - destruct name; cbn; split; congruence.
  - cbn [forallb] in Hlit. apply andb_true_iff in Hlit as [Hp Hlit].
    apply andb_true_iff in Hp as [Hstar Hq].
    apply negb_true_iff in Hstar, Hq.
    cbn [glob.fnmatch_chars]. rewrite Hstar.
    destruct name as [|c name]; [split; discriminate|].
    rewrite Hq, orb_false_l. split.
    + intros H. apply andb_true_iff in H as [Hc Hm].
      apply Ascii.eqb_eq in Hc. apply (IH name Hlit) in Hm. congruence.
    + intros [= -> ->]. apply andb_true_iff. split.
      * apply Ascii.eqb_refl.
      * apply IH; [exact Hlit|reflexivity].
Qed.

(** The pattern [*.pdf] matches the names that end in [.pdf]. *)
Lemma fnmatch_pdf (name : string) :
  glob.fnmatch name "*.pdf" = true <-> exists stem, name = stem +:+ ".pdf".
Proof.
  unfold glob.fnmatch.
  change (list_ascii_of_string "*.pdf")
    with ("*"%char :: list_ascii_of_string ".pdf").
  rewrite fnmatch_star_suffix. split.
  - intros (stem & rest & Hn & Hm).
    apply fnmatch_literal in Hm; [|reflexivity]. subst rest.
    exists (string_of_list_ascii stem).
    rewrite <- (string_of_list_ascii_of_string name), Hn.
    rewrite string_of_list_ascii_app. reflexivity.
  - intros [stem ->].
    exists (list_ascii_of_string stem), (list_ascii_of_string ".pdf").
    split; [apply list_ascii_append|].
    apply fnmatch_literal; reflexivity.
Qed.

Lemma glob1_pdf (dir name : string) (w : World) :
  name ∈ glob.glob1 dir "*.pdf" w
  <-> exists names stem,
        fs_dirs w !! dir = Some names
        /\ name ∈ names
        /\ name = stem +:+ ".pdf"
        /\ glob.ishidden name = false.
Proof.
  unfold glob.glob1. destruct (fs_dirs w !! dir) as [names|].
  - change (glob.ishidden "*.pdf") with false. cbn iota.
    rewrite list_elem_of_In, !filter_In, <- list_elem_of_In, fnmatch_pdf, negb_true_iff.
    split.
    + intros [[Hin Hh] [stem Hs]]. exists names, stem. auto.
    + intros (names' & stem & [= <-] & Hin & Hs & Hh). eauto.
  - split; [intros H; inversion H|].
    intros (names & stem & H & _). discriminate H.
Qed.

(** X11. Discovery finds, for the directory given (or each directory its
    wildcards expand to), the entries of that directory whose name ends in
    [.pdf] and does not start with a dot, each as the directory joined with
    the name, and nothing else: no hidden file, no other extension, no
    upper-case [.PDF], nothing from a sub-directory. *)
Theorem discovery_finds_the_pdf_entries (d : string) (w : World) (p : string) :
  p ∈ glob.glob (d +:+ "/*.pdf") w
  <-> exists dir names name stem,
        dir ∈ listed_dirs d w
        /\ fs_dirs w !! dir = Some names
        /\ name ∈ names
        /\ name = stem +:+ ".pdf"
        /\ glob.ishidden name = false
        /\ p = posixpath.join dir name.
Proof.
  unfold glob.glob, listed_dirs.
  pose proof (split_pattern d) as Hb.
  destruct (posixpath.split (d +:+ "/*.pdf")) as [dirname basename].
  cbn [fst snd] in *. subst basename.
  rewrite list_elem_of_bind. split.
  - intros (dir & Hp & Hdir).
    apply list_elem_of_bind in Hp as (name & Hp & Hname).
    apply list_elem_of_singleton in Hp.
    apply glob1_pdf in Hname as (names & stem & Hl & Hin & Hs & Hh).
    exists dir, names, name, stem. auto 10.
  - intros (dir & names & name & stem & Hdir & Hl & Hin & Hs & Hh & ->).
    exists dir. split; [|exact Hdir].
    apply list_elem_of_bind. exists name. split; [apply list_elem_of_singleton; reflexivity|].
    apply glob1_pdf. eauto 10.
Qed.

Lemma discovery_finds_the_pdf_entries_witness :
  "in/a.pdf" ∈ glob.glob ("in" +:+ "/*.pdf") (Sample.world []).
Proof.
  apply (discovery_finds_the_pdf_entries "in" (Sample.world []) "in/a.pdf").
  exists "in", ["a.pdf"; "b.pdf"; ".h.pdf"; "c.pdf"; "notes.txt"], "a.pdf", "a".
  repeat split; try reflexivity; vm_compute; constructor.
Defined.

(** ** A run over a directory already processed *)

Lemma for_each_skips (cfg : Config) (d : string) (jobs : list Job) (w : World) :
  Forall (fun job => output job = Some d /\ isfile (output_path d job) w = true) jobs ->
  for_each (fun job => submit (process_pdf cfg recursion_limit job)) jobs w = (Ok tt, w).
Proof.
  induction 1 as [|job jobs [Ho Hf] _ IH]; [reflexivity|].
  cbn [for_each]. unfold mbind, M_bind, submit at 1. cbn beta iota.
  change recursion_limit with (S 999).
  rewrite (process_pdf_skips cfg 999 job d w Ho Hf). exact IH.
Qed.

Lemma skipped_batch (cfg : Config) (b : list string) (d : string) (n : Z)
    (service : string) (g h c e : bool) (w : World) :
  0 < n ->
  (forall f, f ∈ b -> isfile (posixpath.join d (tei_name f)) w = true) ->
  process_batch cfg b (Some d) n service g h c e w
  = (Ok tt, set_trace (trace w ++ [batch_notice b]) w).
Proof.
  intros Hn Hb. rewrite process_batch_in_order by exact Hn.
  rewrite (for_each_skips cfg d); [reflexivity|].
  apply Forall_fmap, Forall_forall. intros f Hf.
  split; [reflexivity|]. cbn. rewrite isfile_set_trace. apply Hb, Hf.
Qed.

Lemma skipped_batches (cfg : Config) (bs : list (list string)) (d : string) (n : Z)
    (service : string) (g h c e : bool) (w : World) :
  0 < n ->
  (forall b f, b ∈ bs -> f ∈ b -> isfile (posixpath.join d (tei_name f)) w = true) ->
  for_each (fun b => process_batch cfg b (Some d) n service g h c e) bs w
  = (Ok tt, set_trace (trace w ++ (batch_notice <$> bs)) w).
Proof.
  intros Hn. revert w. induction bs as [|b bs IH]; intros w Hbs.
  - cbn. rewrite app_nil_r. destruct w; reflexivity.
  - cbn [for_each fmap list_fmap].
    erewrite bind_ok
      by (apply skipped_batch; [exact Hn|intros f Hf; apply (Hbs b f); [left|exact Hf]]).
    rewrite IH.
    + f_equal. world_eq.
    + intros b' f Hb' Hf. rewrite isfile_set_trace. apply (Hbs b' f); [right; exact Hb'|exact Hf].
Qed.



(** ** A pool without workers *)

Lemma batches_not_empty (B : Z) (found : list string) :
  found <> [] -> exists b bs, batches B found = b :: bs.
Proof.
  intros Hf. destruct (batches B found) as [|b bs] eqn:E; [|eauto].
  pose proof (batches_concat B found) as Hc. rewrite E in Hc.
  cbn in Hc. congruence.
Qed.

(** X13. A number of workers of zero or less is refused by the pool, not by
    [process]: when discovery finds at least one file, [process] prints the
    line of the first batch and ends with [ValueError], before any call of
    [process_pdf]; when it finds none, no pool is made and [process]
    returns. *)
Theorem pool_without_workers_is_refused (cfg : Config) (d : string)
    (out : option string) (n : Z) (service : string) (g h c e : bool) (w : World) :
  n <= 0 ->
  (glob.glob (d +:+ "/*.pdf") w = [] ->
   process cfg (Some d) out n service g h c e w
   = (Ok tt, set_trace (trace w ++ process_prelude e) w))
  /\ (glob.glob (d +:+ "/*.pdf") w <> [] ->
      exists b bs,
        batches (batch_size cfg) (glob.glob (d +:+ "/*.pdf") w) = b :: bs
        /\ process cfg (Some d) out n service g h c e w
           = (Raise ValueError,
              set_trace (trace w ++ process_prelude e ++ [batch_notice b]) w)).
Proof.
  intros Hn. split; [apply process_nothing_found|].
  intros Hfound.
  destruct (batches_not_empty (batch_size cfg) _ Hfound) as (b & bs & Hb).
  exists b, bs. split; [exact Hb|].
  unfold process.
  erewrite bind_ok by reflexivity.
  assert (Hpre : forall k : unit -> M unit,
             ((if e then emit (LogSetup "errors.log") else mret tt) ≫= k)
               (set_trace (trace w ++ [Print (str_bool e)]) w)
             = k tt (set_trace (trace w ++ process_prelude e) w)).
  { intros k. unfold process_prelude.
    destruct e; erewrite bind_ok by reflexivity; f_equal; world_eq. }
  rewrite Hpre. unfold glob_input. erewrite bind_ok by reflexivity.
  rewrite dispatch_all_batches.
  change (glob.glob (d +:+ "/*.pdf") (set_trace (trace w ++ process_prelude e) w))
    with (glob.glob (d +:+ "/*.pdf") w).
  rewrite Hb. cbn [for_each]. unfold mbind at 1, M_bind.
  unfold process_batch. erewrite bind_ok by reflexivity.
  destruct (n <=? 0) eqn:E; [|apply Z.leb_gt in E; lia].
  unfold raise. f_equal. world_eq.
Qed.

Lemma pool_without_workers_is_refused_witness :
  exists b bs,
    batches 2 (glob.glob ("in" +:+ "/*.pdf") (Sample.world [Response [60] 200]))
    = b :: bs
    /\ process Sample.config (Some "in") (Some "out") 0 "processFulltextDocument"
         false false false false (Sample.world [Response [60] 200])
       = (Raise ValueError,
          set_trace ([] ++ [Print "False"] ++ [batch_notice b])
            (Sample.world [Response [60] 200])).
Proof.
  destruct (pool_without_workers_is_refused Sample.config "in" (Some "out") 0
              "processFulltextDocument" false false false false
              (Sample.world [Response [60] 200])) as [_ H]; [lia|].
  apply H. vm_compute. discriminate.
Defined.
